(** * Document validation and formatting utilities (src/utils/validation)

    A shallow embedding of [validationUtils] and of the ECMAScript built-ins it
    calls, followed by the properties of the validators.

    - [JS]: the runtime primitives the module relies on (strings as sequences
      of UTF-16 code units, [replace] with the regular expressions that occur
      in the source, [slice], [substring], [charAt], [trim], [parseInt],
      [parseFloat], Number-to-String, and IEEE binary64 comparison).
    - [validationUtils]: the validators and formatters of the source object.
    - [ValidationInput]: the change handler of the input component that
      calls them.
    - [Spec]: the check-digit computations in the words of the specification.
    - the properties. *)

From Stdlib Require Import String Ascii.
From Stdlib Require Import ZArith NArith List Bool Lia.
From Stdlib Require Import SpecFloat.
Import ListNotations.

Set Implicit Arguments.
Local Open Scope Z_scope.

(* ================================================================== *)
(** * ECMAScript primitives *)
(* ================================================================== *)

Module JS.

(** ** Strings

    A JavaScript string is a finite sequence of UTF-16 code units. *)

Definition char := N.
Definition jsstring := list char.

(** Literals are written as Rocq strings (UTF-8 in the source text) and
    decoded to code units; only the one-, two- and three-byte forms occur. *)
Fixpoint utf8_decode (bs : list N) : jsstring :=
  match bs with
  | [] => []
  | b :: r =>
      if (b <? 128)%N then b :: utf8_decode r
      else if (b <? 224)%N then
        match r with
        | b1 :: r' => ((b mod 32) * 64 + b1 mod 64)%N :: utf8_decode r'
        | [] => [b]
        end
      else
        match r with
        | b1 :: b2 :: r' =>
            ((b mod 16) * 4096 + (b1 mod 64) * 64 + b2 mod 64)%N :: utf8_decode r'
        | _ => b :: utf8_decode r
        end
  end.

Definition str (s : string) : jsstring :=
  utf8_decode (map N_of_ascii (list_ascii_of_string s)).

Arguments str s%_string.

Definition string_eqb (a b : jsstring) : bool :=
  if list_eq_dec N.eq_dec a b then true else false.

(** [\d] matches exactly the ten ASCII digits. *)
Definition isDigit (c : char) : bool := ((48 <=? c) && (c <=? 57))%N.

Definition digitVal (c : char) : Z := Z.of_N c - 48.

Definition digitChar (d : Z) : char := Z.to_N (d + 48).

(** WhiteSpace and LineTerminator code points (ECMA-262, 12.2 and 12.3):
    TAB, LF, VT, FF, CR, SP, NBSP, the Unicode Zs category, LS, PS, ZWNBSP. *)
Definition isWhiteSpace (c : char) : bool :=
  ((c =? 9) || (c =? 10) || (c =? 11) || (c =? 12) || (c =? 13) || (c =? 32)
   || (c =? 160) || (c =? 5760) || ((8192 <=? c) && (c <=? 8202))
   || (c =? 8232) || (c =? 8233) || (c =? 8239) || (c =? 8287)
   || (c =? 12288) || (c =? 65279))%N.

(** [s.replace(/[^\d]+/g, '')] and [s.replace(/[^\d]/g, '')]: every maximal
    run (resp. every single occurrence) of non-digits is deleted; both leave
    exactly the digits of [s], in order. *)
Definition stripNonDigits (s : jsstring) : jsstring := filter isDigit s.

(** [s.replace(/[^\d.,]/g, '')]. *)
Definition isCurrencyChar (c : char) : bool :=
  (isDigit c || (c =? 46) || (c =? 44))%N.

Definition stripNonCurrency (s : jsstring) : jsstring := filter isCurrencyChar s.

(** [s.replace(',', '.')]: a string pattern replaces its first occurrence only. *)
Fixpoint replaceFirstComma (s : jsstring) : jsstring :=
  match s with
  | [] => []
  | c :: r => if (c =? 44)%N then 46%N :: r else c :: replaceFirstComma r
  end.

(** [s.match(/(\d)\1{n}/)] converted to a boolean: some digit of [s] is
    followed by [n] further copies of itself. *)
Definition startsWithRun (n : nat) (s : jsstring) : bool :=
  match s with
  | [] => false
  | c :: r =>
      isDigit c && (n <=? length r)%nat && forallb (N.eqb c) (firstn n r)
  end.

Fixpoint matchesDigitRun (n : nat) (s : jsstring) : bool :=
  match s with
  | [] => false
  | _ :: r => startsWithRun n s || matchesDigitRun n r
  end.

(** [Array.prototype.slice(start, end)] and [String.prototype.substring]:
    relative indices are clamped as the standard prescribes. *)
Definition relIndex (len k : Z) : Z :=
  if k <? 0 then Z.max (len + k) 0 else Z.min k len.

Definition slice {A} (l : list A) (first last : Z) : list A :=
  let len := Z.of_nat (length l) in
  let k := relIndex len first in
  let final := relIndex len last in
  firstn (Z.to_nat (Z.max (final - k) 0)) (skipn (Z.to_nat k) l).

Definition substring (s : jsstring) (first last : Z) : jsstring :=
  let len := Z.of_nat (length s) in
  let a := Z.min (Z.max first 0) len in
  let b := Z.min (Z.max last 0) len in
  let from := Z.min a b in
  let to := Z.max a b in
  firstn (Z.to_nat (to - from)) (skipn (Z.to_nat from) s).

Definition substringFrom (s : jsstring) (first : Z) : jsstring :=
  substring s first (Z.of_nat (length s)).

(** [s.charAt(k)]: the one-unit string at [k], or the empty string. *)
Definition charAt (s : jsstring) (k : Z) : jsstring :=
  if (k <? 0) || (Z.of_nat (length s) <=? k) then []
  else firstn 1 (skipn (Z.to_nat k) s).

Fixpoint dropWhile {A} (p : A -> bool) (l : list A) : list A :=
  match l with
  | [] => []
  | a :: r => if p a then dropWhile p r else l
  end.

Definition trim (s : jsstring) : jsstring :=
  rev (dropWhile isWhiteSpace (rev (dropWhile isWhiteSpace s))).

(** ** Integer-valued Numbers

    The check-digit arithmetic only ever handles integers far below 2^53,
    on which binary64 arithmetic is exact; such Numbers are modelled by their
    integer value, with [NaN] kept as a separate, absorbing value. *)

Inductive num := NaN | Int (z : Z).

Definition nadd (a b : num) : num :=
  match a, b with Int x, Int y => Int (x + y) | _, _ => NaN end.

Definition nsub (a b : num) : num :=
  match a, b with Int x, Int y => Int (x - y) | _, _ => NaN end.

Definition nmul (a b : num) : num :=
  match a, b with Int x, Int y => Int (x * y) | _, _ => NaN end.

(** [a % b]: the remainder takes the sign of the dividend; NaN when [b] is 0. *)
Definition nrem (a b : num) : num :=
  match a, b with
  | Int x, Int y => if y =? 0 then NaN else Int (Z.rem x y)
  | _, _ => NaN
  end.

Definition nlt (a b : num) : bool :=
  match a, b with Int x, Int y => x <? y | _, _ => false end.

(** [a === b] on Numbers: NaN differs from everything, itself included. *)
Definition strictEq (a b : num) : bool :=
  match a, b with Int x, Int y => x =? y | _, _ => false end.

(** [a === arr[i]], where an index out of range reads [undefined]. *)
Definition strictEqElem (a : num) (b : option num) : bool :=
  match b with Some y => strictEq a y | None => false end.

(** Unary [+] applied to a one-unit string ([StringToNumber]): a digit is its
    value, a white-space unit converts to 0, anything else to NaN. *)
Definition toNumberChar (c : char) : num :=
  if isDigit c then Int (digitVal c)
  else if isWhiteSpace c then Int 0
  else NaN.

(** [parseInt(s)] without radix: leading white space is skipped, a sign and a
    [0x]/[0X] prefix are honoured, and the longest run of digits of the radix
    is read; NaN when that run is empty. *)
Definition hexVal (c : char) : option Z :=
  if isDigit c then Some (digitVal c)
  else if ((97 <=? c) && (c <=? 102))%N then Some (Z.of_N c - 87)
  else if ((65 <=? c) && (c <=? 70))%N then Some (Z.of_N c - 55)
  else None.

Definition decVal (c : char) : option Z :=
  if isDigit c then Some (digitVal c) else None.

Fixpoint readDigits (val : char -> option Z) (radix : Z) (s : jsstring)
    (acc : option Z) : option Z :=
  match s with
  | [] => acc
  | c :: r =>
      match val c with
      | Some d =>
          readDigits val radix r
            (Some (match acc with Some a => a * radix + d | None => d end))
      | None => acc
      end
  end.

Definition parseInt (s : jsstring) : num :=
  let t := dropWhile isWhiteSpace s in
  let '(neg, t1) :=
    match t with
    | 45%N :: r => (true, r)
    | 43%N :: r => (false, r)
    | _ => (false, t)
    end in
  let r :=
    match t1 with
    | 48%N :: 120%N :: h | 48%N :: 88%N :: h => readDigits hexVal 16 h None
    | _ => readDigits decVal 10 t1 None
    end in
  match r with
  | Some v => Int (if neg then - v else v)
  | None => NaN
  end.

(** ** Numbers

    A Number is an IEEE 754 binary64 value, as specified by the standard
    library's [spec_float] (53 bits of precision, infinities at exponent
    1024).  [undefined] for a missing argument is [None]. *)

Definition number := spec_float.

Definition prec : Z := 53.
Definition emax : Z := 1024.

Definition isNaN (x : number) : bool :=
  match x with S754_nan => true | _ => false end.

(** [a < b], [a > b], [a >= b]: all false when an operand is NaN. *)
Definition lt (a b : number) : bool := SFltb a b.
Definition gt (a b : number) : bool := SFltb b a.
Definition ge (a b : number) : bool := SFleb b a.

(** The Number nearest to [±m·10^e], ties to even: an integer is rounded
    directly, a proper fraction [m / 10^-e] through the correctly rounded
    division on integer significands. *)
Definition roundDecimal (neg : bool) (m : N) (e : Z) : number :=
  match m with
  | N0 => S754_zero neg
  | Npos p =>
      if 0 <=? e then binary_round prec emax neg (p * Z.to_pos (10 ^ e)) 0
      else
        let '(q, e', l) :=
          SFdiv_core_binary prec emax (Zpos p) 0 (10 ^ (- e)) 0 in
        binary_round_aux prec emax neg q e' l
  end.

(** The Number of an integer literal of the source, such as [0] or [10]. *)
Definition ofZ (z : Z) : number := roundDecimal (z <? 0) (Z.abs_N z) 0.

Fixpoint span {A} (p : A -> bool) (l : list A) : list A * list A :=
  match l with
  | [] => ([], [])
  | a :: r =>
      if p a then let '(x, y) := span p r in (a :: x, y) else ([], l)
  end.

(** The value of a run of decimal digits. *)
Definition digitsValue (ds : jsstring) : N :=
  fold_left (fun acc c => (acc * 10 + (c - 48))%N) ds 0%N.

Fixpoint startsWith (p s : jsstring) : bool :=
  match p, s with
  | [], _ => true
  | a :: p', b :: s' => (a =? b)%N && startsWith p' s'
  | _ :: _, [] => false
  end.

Definition scanSign (s : jsstring) : bool * jsstring :=
  match s with
  | c :: r =>
      if (c =? 45)%N then (true, r)
      else if (c =? 43)%N then (false, r)
      else (false, s)
  | [] => (false, s)
  end.

(** ExponentPart: [e] or [E], an optional sign and at least one digit; when it
    is incomplete nothing is consumed and the exponent is 0. *)
Definition scanExponent (s : jsstring) : Z * jsstring :=
  match s with
  | c :: r =>
      if ((c =? 101) || (c =? 69))%N then
        let '(neg, r1) := scanSign r in
        let '(ds, r2) := span isDigit r1 in
        match ds with
        | [] => (0, s)
        | _ :: _ =>
            let v := Z.of_N (digitsValue ds) in
            ((if neg then - v else v), r2)
        end
      else (0, s)
  | [] => (0, s)
  end.

(** The fraction after the integer digits [ip]: a dot and the digits that
    follow it; a dot with no digit on either side is not consumed. *)
Definition scanFraction (ip s : jsstring) : jsstring * jsstring :=
  match s with
  | c :: r =>
      if (c =? 46)%N then
        match ip, span isDigit r with
        | [], ([], _) => ([], s)
        | _, (fp, r') => (fp, r')
        end
      else ([], s)
  | [] => ([], s)
  end.

(** The longest prefix of [s] that is a StrDecimalLiteral, with its value and
    the rest of [s]; [None] when no prefix is one. *)
Definition scanDecimalLiteral (s : jsstring) : option (number * jsstring) :=
  let '(neg, t1) := scanSign s in
  if startsWith (str "Infinity") t1 then Some (S754_infinity neg, skipn 8 t1)
  else
    let '(ip, t2) := span isDigit t1 in
    let '(fp, t3) := scanFraction ip t2 in
    match ip ++ fp with
    | [] => None
    | ds =>
        let '(ex, t4) := scanExponent t3 in
        Some (roundDecimal neg (digitsValue ds) (ex - Z.of_nat (length fp)), t4)
    end.

(** [parseFloat(s)]: leading white space is skipped and the longest numeral
    prefix is converted, rounded to the nearest Number; NaN when there is
    none. *)
Definition parseFloat (s : jsstring) : number :=
  match scanDecimalLiteral (dropWhile isWhiteSpace s) with
  | Some (x, _) => x
  | None => S754_nan
  end.

(** *** Number to String *)

Fixpoint uintChars (u : Decimal.uint) : jsstring :=
  match u with
  | Decimal.Nil => []
  | Decimal.D0 r => 48%N :: uintChars r
  | Decimal.D1 r => 49%N :: uintChars r
  | Decimal.D2 r => 50%N :: uintChars r
  | Decimal.D3 r => 51%N :: uintChars r
  | Decimal.D4 r => 52%N :: uintChars r
  | Decimal.D5 r => 53%N :: uintChars r
  | Decimal.D6 r => 54%N :: uintChars r
  | Decimal.D7 r => 55%N :: uintChars r
  | Decimal.D8 r => 56%N :: uintChars r
  | Decimal.D9 r => 57%N :: uintChars r
  end.

(** The decimal digits of a natural number, ["0"] for zero. *)
Definition decimalDigits (n : N) : jsstring := uintChars (N.to_uint n).

(** [m·2^e·10^j] as a fraction of two positive integers. *)
Definition scaled (m : positive) (e j : Z) : Z * Z :=
  (Zpos m * 2 ^ Z.max e 0 * 10 ^ Z.max j 0,
   2 ^ Z.max (- e) 0 * 10 ^ Z.max (- j) 0).

(** The decimal exponent [n] with [10^(n-1) <= m·2^e < 10^n], for a finite
    binary64 value (at least 2^-1074, so that [10^400] scales it above 1). *)
Definition decimalExponent (m : positive) (e : Z) : Z :=
  let '(p, q) := scaled m e 400 in
  Z.of_nat (length (decimalDigits (Z.to_N (p / q)))) - 400.

(** Number::toString, step 5: the shortest digit string [s] (of [k] digits)
    and exponent [n] with [s·10^(n-k)] rounding to the value; of the two
    integers around the scaled value the nearer one is preferred, the even
    one on a tie. *)
Fixpoint shortestDigits (fuel : nat) (k : Z) (m : positive) (e n0 : Z)
    : Z * Z :=
  match fuel with
  | O => (Zpos m, n0)
  | S fuel' =>
      let '(p, q) := scaled m e (k - n0) in
      let lo := p / q in
      let hi := lo + 1 in
      let x := S754_finite false m e in
      let ok s := SFeqb (roundDecimal false (Z.to_N s) (n0 - k)) x in
      let nearerLo :=
        match 2 * (p mod q) ?= q with
        | Lt => true
        | Eq => Z.even lo
        | Gt => false
        end in
      let carry s := if s =? 10 ^ k then (10 ^ (k - 1), n0 + 1) else (s, n0) in
      if ok lo && (nearerLo || negb (ok hi)) then (lo, n0)
      else if ok hi then carry hi
      else shortestDigits fuel' (k + 1) m e n0
  end.

Definition zeros (n : Z) : jsstring := repeat 48%N (Z.to_nat n).

(** Number::toString, steps 6 to 10, for the digits [ds] and exponent [n]. *)
Definition formatDigits (ds : jsstring) (n : Z) : jsstring :=
  let k := Z.of_nat (length ds) in
  if (k <=? n) && (n <=? 21) then ds ++ zeros (n - k)
  else if (0 <? n) && (n <=? 21) then
    firstn (Z.to_nat n) ds ++ str "." ++ skipn (Z.to_nat n) ds
  else if (-6 <? n) && (n <=? 0) then str "0." ++ zeros (- n) ++ ds
  else
    let e := n - 1 in
    let expo :=
      str "e" ++ (if e <? 0 then str "-" else str "+")
      ++ decimalDigits (Z.abs_N e) in
    match ds with
    | [d] => [d] ++ expo
    | d :: r => [d] ++ str "." ++ r ++ expo
    | [] => expo
    end.

(** [String(x)] for a Number, as a template literal [`${x}`] computes it. *)
Definition numberToString (x : number) : jsstring :=
  match x with
  | S754_nan => str "NaN"
  | S754_zero _ => str "0"
  | S754_infinity neg => (if neg then str "-" else []) ++ str "Infinity"
  | S754_finite neg m e =>
      let '(s, n) := shortestDigits 17 1 m e (decimalExponent m e) in
      (if neg then str "-" else []) ++ formatDigits (decimalDigits (Z.to_N s)) n
  end.

(** ** Regular expressions

    The patterns of the source that are more than a character class are
    matched through their syntax: [fullMatch r s] is [/^r$/.test(s)],
    computed with derivatives.  Without the [u] flag a class is a set of
    code units. *)

Inductive regex :=
  | Void
  | Eps
  | Class (p : char -> bool)
  | Seq (r1 r2 : regex)
  | Alt (r1 r2 : regex)
  | Star (r : regex).

(** [r+]. *)
Definition Plus (r : regex) : regex := Seq r (Star r).

Fixpoint nullable (r : regex) : bool :=
  match r with
  | Void => false
  | Eps => true
  | Class _ => false
  | Seq r1 r2 => nullable r1 && nullable r2
  | Alt r1 r2 => nullable r1 || nullable r2
  | Star _ => true
  end.

Fixpoint deriv (c : char) (r : regex) : regex :=
  match r with
  | Void => Void
  | Eps => Void
  | Class p => if p c then Eps else Void
  | Seq r1 r2 =>
      if nullable r1 then Alt (Seq (deriv c r1) r2) (deriv c r2)
      else Seq (deriv c r1) r2
  | Alt r1 r2 => Alt (deriv c r1) (deriv c r2)
  | Star r1 => Seq (deriv c r1) (Star r1)
  end.

Definition fullMatch (r : regex) (s : jsstring) : bool :=
  nullable (fold_left (fun r c => deriv c r) s r).

(** ** Replacement patterns

    [s.replace(/(\d{n1})...(\d{nk})/, template)]: the leftmost run of
    [n1 + ... + nk] digits is cut into the groups and replaced by the
    template, in which [$i] stands for group [i]; a string without such a
    run is returned as it is. *)

Inductive repl := Group (i : nat) | Lit (s : jsstring).

Fixpoint cutGroups (ns : list nat) (s : jsstring) : list jsstring :=
  match ns with
  | [] => []
  | n :: ns' => firstn n s :: cutGroups ns' (skipn n s)
  end.

Definition expand (template : list repl) (gs : list jsstring) : jsstring :=
  flat_map
    (fun r => match r with Group i => nth (i - 1) gs [] | Lit s => s end)
    template.

Definition digitRun (n : nat) (s : jsstring) : bool :=
  (n <=? length s)%nat && forallb isDigit (firstn n s).

Fixpoint replaceGroups (ns : list nat) (template : list repl) (s : jsstring)
    : jsstring :=
  match s with
  | [] => []
  | c :: r =>
      if digitRun (list_sum ns) s then
        expand template (cutGroups ns s) ++ skipn (list_sum ns) s
      else c :: replaceGroups ns template r
  end.

End JS.

(* ================================================================== *)
(** * The validation module *)
(* ================================================================== *)

Module validationUtils.
Import JS.

(** [reduce((soma, el, index) => f soma el index, init)]. *)
Fixpoint reduceFrom {A B} (f : B -> A -> Z -> B) (l : list A) (index : Z)
    (acc : B) : B :=
  match l with
  | [] => acc
  | el :: r => reduceFrom f r (index + 1) (f acc el index)
  end.

Definition reduce {A B} (f : B -> A -> Z -> B) (l : list A) (init : B) : B :=
  reduceFrom f l 0 init.

(** [rest] of [validateCPF], closed over [cpfArray]. *)
Definition rest (cpfArray : list num) (count : Z) : num :=
  nrem
    (nrem
       (nmul
          (reduce (fun soma el index => nadd soma (nmul el (Int (count - index))))
             (slice cpfArray 0 (count - 12)) (Int 0))
          (Int 10))
       (Int 11))
    (Int 10).

Definition validateCPF (cpf : jsstring) : bool :=
  let cpf := stripNonDigits cpf in
  if negb (length cpf =? 11)%nat || matchesDigitRun 10 cpf then false
  else
    let cpfArray := map toNumberChar cpf in
    strictEqElem (rest cpfArray 10) (nth_error cpfArray 9)
    && strictEqElem (rest cpfArray 11) (nth_error cpfArray 10).

(** The summation loop of [validateCNPJ]:
    [for (let i = tamanho; i >= 1; i--) { soma += parseInt(numeros.charAt(tamanho - i)) * pos--; if (pos < 2) pos = 9; }],
    by recursion on the loop counter [i]; it returns the final [soma]. *)
Fixpoint somaLoop (i : nat) (tamanho : Z) (numeros : jsstring) (soma : num)
    (pos : Z) : num :=
  match i with
  | O => soma
  | S i' =>
      let soma :=
        nadd soma
          (nmul (parseInt (charAt numeros (tamanho - Z.of_nat i))) (Int pos)) in
      let pos := pos - 1 in
      let pos := if pos <? 2 then 9 else pos in
      somaLoop i' tamanho numeros soma pos
  end.

(** [soma % 11 < 2 ? 0 : 11 - soma % 11]. *)
Definition resultadoOf (soma : num) : num :=
  if nlt (nrem soma (Int 11)) (Int 2) then Int 0
  else nsub (Int 11) (nrem soma (Int 11)).

Definition knownInvalidCNPJ (cnpj : jsstring) : bool :=
  string_eqb cnpj (str "00000000000000")
  || string_eqb cnpj (str "11111111111111")
  || string_eqb cnpj (str "22222222222222")
  || string_eqb cnpj (str "33333333333333")
  || string_eqb cnpj (str "44444444444444")
  || string_eqb cnpj (str "55555555555555")
  || string_eqb cnpj (str "66666666666666")
  || string_eqb cnpj (str "77777777777777")
  || string_eqb cnpj (str "88888888888888")
  || string_eqb cnpj (str "99999999999999").

Definition validateCNPJ (cnpj : jsstring) : bool :=
  let cnpj := stripNonDigits cnpj in
  if negb (length cnpj =? 14)%nat then false
  else if knownInvalidCNPJ cnpj then false
  else
    let tamanho := Z.of_nat (length cnpj) - 2 in
    let numeros := substring cnpj 0 tamanho in
    let digitos := substringFrom cnpj tamanho in
    let soma := somaLoop (Z.to_nat tamanho) tamanho numeros (Int 0) (tamanho - 7) in
    let resultado := resultadoOf soma in
    if negb (strictEq resultado (parseInt (charAt digitos 0))) then false
    else
      let tamanho := tamanho + 1 in
      let numeros := substring cnpj 0 tamanho in
      let soma := somaLoop (Z.to_nat tamanho) tamanho numeros (Int 0) (tamanho - 7) in
      let resultado := resultadoOf soma in
      if negb (strictEq resultado (parseInt (charAt digitos 1))) then false
      else true.

(** The result of [validateDocument]. *)
Inductive DocumentType := CPF | CNPJ.

Module Document.
Record t := mk { isValid : bool; type : option DocumentType; message : jsstring }.
End Document.

Definition validateDocument (document : jsstring) : Document.t :=
  let cleanDoc := stripNonDigits document in
  if (length cleanDoc =? 11)%nat then
    let isValid := validateCPF document in
    Document.mk isValid (Some CPF)
      (if isValid then str "CPF válido" else str "CPF inválido")
  else if (length cleanDoc =? 14)%nat then
    let isValid := validateCNPJ document in
    Document.mk isValid (Some CNPJ)
      (if isValid then str "CNPJ válido" else str "CNPJ inválido")
  else
    Document.mk false None
      (str "Documento deve ter 11 dígitos (CPF) ou 14 dígitos (CNPJ)").

(** [s.replace(/(\d{n1})(\d{n2})(\d{n3})/, subst $1 $2 $3)]: the leftmost
    run of [n1 + n2 + n3] digits is cut into the three groups and replaced;
    a string without such a run is returned as it is. *)
Definition digitsAt (n : nat) (s : jsstring) : bool :=
  (n <=? length s)%nat && forallb isDigit (firstn n s).

Fixpoint replaceGroups3 (n1 n2 n3 : nat)
    (subst : jsstring -> jsstring -> jsstring -> jsstring) (s : jsstring)
    : jsstring :=
  match s with
  | [] => []
  | c :: r =>
      if digitsAt (n1 + n2 + n3) s then
        subst (firstn n1 s) (firstn n2 (skipn n1 s))
              (firstn n3 (skipn (n1 + n2) s))
        ++ skipn (n1 + n2 + n3) s
      else c :: replaceGroups3 n1 n2 n3 subst r
  end.

(** The replacement text ['($1) $2-$3']. *)
Definition phonePattern (g1 g2 g3 : jsstring) : jsstring :=
  str "(" ++ g1 ++ str ") " ++ g2 ++ str "-" ++ g3.

Definition formatPhone (phone : jsstring) : jsstring :=
  let cleanPhone := stripNonDigits phone in
  if (length cleanPhone =? 10)%nat then
    replaceGroups3 2 4 4 phonePattern cleanPhone
  else if (length cleanPhone =? 11)%nat then
    replaceGroups3 2 5 4 phonePattern cleanPhone
  else phone.

(** ['$1.$2.$3-$4'] and ['$1.$2.$3/$4-$5']. *)
Definition cpfTemplate : list repl :=
  [Group 1; Lit (str "."); Group 2; Lit (str "."); Group 3; Lit (str "-");
   Group 4].

Definition cnpjTemplate : list repl :=
  [Group 1; Lit (str "."); Group 2; Lit (str "."); Group 3; Lit (str "/");
   Group 4; Lit (str "-"); Group 5].

Definition formatCPF (cpf : jsstring) : jsstring :=
  let cpf := stripNonDigits cpf in
  replaceGroups [3; 3; 3; 2]%nat cpfTemplate cpf.

Definition formatCNPJ (cnpj : jsstring) : jsstring :=
  let cnpj := stripNonDigits cnpj in
  replaceGroups [2; 3; 3; 4; 2]%nat cnpjTemplate cnpj.

Definition formatDocument (document : jsstring) : jsstring :=
  let cleanDoc := stripNonDigits document in
  if (length cleanDoc <=? 11)%nat then formatCPF cleanDoc
  else formatCNPJ cleanDoc.

Definition validatePhone (phone : jsstring) : bool :=
  let cleanPhone := stripNonDigits phone in
  (10 <=? length cleanPhone)%nat && (length cleanPhone <=? 11)%nat.

(** [/^[^\s@]+@[^\s@]+\.[^\s@]+$/]. *)
Definition emailUnit (c : char) : bool :=
  negb (isWhiteSpace c || (c =? 64)%N).

Definition emailRegex : regex :=
  Seq (Plus (Class emailUnit))
    (Seq (Class (N.eqb 64))
       (Seq (Plus (Class emailUnit))
          (Seq (Class (N.eqb 46)) (Plus (Class emailUnit))))).

Definition validateEmail (email : jsstring) : bool :=
  fullMatch emailRegex email.

Definition validateCurrency (value : jsstring) : bool :=
  let numValue := parseFloat (replaceFirstComma (stripNonCurrency value)) in
  negb (isNaN numValue) && ge numValue (ofZ 0).

(** The result of the field validators. *)
Record Result := mkResult { isValid : bool; message : jsstring }.

Definition validateRequired (value fieldName : jsstring) : Result :=
  let isValid := (0 <? length (trim value))%nat in
  mkResult isValid (if isValid then [] else fieldName ++ str " é obrigatório").

(** [min] and [max] are optional arguments; a missing [min] defaults to 0. *)
Definition validateNumber (value : jsstring) (min max : option number)
    : Result :=
  let min := match min with Some m => m | None => ofZ 0 end in
  let numValue := parseFloat value in
  if isNaN numValue then
    mkResult false (str "Valor deve ser um número válido")
  else if lt numValue min then
    mkResult false (str "Valor mínimo é " ++ numberToString min)
  else
    match max with
    | Some max =>
        if gt numValue max then
          mkResult false (str "Valor máximo é " ++ numberToString max)
        else mkResult true []
    | None => mkResult true []
    end.

End validationUtils.

Import JS validationUtils.

(* ================================================================== *)
(** * The validated input component (components/ui/input-validation) *)
(* ================================================================== *)

Module ValidationInput.

Module ValidationType.
Inductive t := document | phone | email | currency | required | number.
End ValidationType.

(** The props [handleChange] reads; a missing [label] or [validationType]
    is [None], and [required] has its default [false] resolved. *)
Record Props := mkProps {
  label : option jsstring;
  validationType : option ValidationType.t;
  required : bool
}.

(** A string is truthy when it is not empty. *)
Definition truthy (s : jsstring) : bool :=
  match s with [] => false | _ :: _ => true end.

(** [label || 'Campo']. *)
Definition labelOrDefault (label : option jsstring) : jsstring :=
  match label with
  | Some l => if truthy l then l else str "Campo"
  | None => str "Campo"
  end.

(** What one call of [handleChange] produces: the value handed to
    [onChange] and the validation handed to [setValidationState] and
    [onValidation] (of which [isValid] and [message] are read). *)
Record Outcome := mkOutcome { newValue : jsstring; validation : Result }.

Definition handleChange (props : Props) (value : jsstring) : Outcome :=
  let newValue :=
    match validationType props with
    | Some ValidationType.document => formatDocument value
    | Some ValidationType.phone => formatPhone value
    | _ => value
    end in
  let validation :=
    if required props && negb (truthy (trim newValue)) then
      mkResult false (labelOrDefault (label props) ++ str " é obrigatório")
    else if truthy (trim newValue) then
      match validationType props with
      | Some ValidationType.document =>
          let r := validateDocument newValue in
          mkResult (Document.isValid r) (Document.message r)
      | Some ValidationType.phone =>
          mkResult (validatePhone newValue)
            (if validatePhone newValue then [] else str "Telefone inválido")
      | Some ValidationType.email =>
          mkResult (validateEmail newValue)
            (if validateEmail newValue then [] else str "Email inválido")
      | Some ValidationType.currency =>
          mkResult (validateCurrency newValue)
            (if validateCurrency newValue then [] else str "Valor inválido")
      | Some ValidationType.number => validateNumber newValue None None
      | Some ValidationType.required =>
          validateRequired newValue (labelOrDefault (label props))
      | None => mkResult true []
      end
    else mkResult true [] in
  mkOutcome newValue validation.

(** The error paragraph is rendered under
    [showValidation && !validationState.isValid && validationState.message]. *)
Definition errorShown (showValidation : bool) (st : Result) : bool :=
  showValidation && negb (isValid st) && truthy (message st).

End ValidationInput.

Import ValidationInput.

(* ================================================================== *)
(** * Reference notions

    The check-digit computations as the specification words them, and the
    auxiliary notions the statements below are phrased with. *)
(* ================================================================== *)

Module Spec.

Definition digits (c : jsstring) : list Z := map digitVal c.

(** The sum of each digit multiplied by the weight at the same position. *)
Fixpoint weightedSum (ws ds : list Z) : Z :=
  match ws, ds with
  | w :: ws', d :: ds' => d * w + weightedSum ws' ds'
  | _, _ => 0
  end.

(** Every unit of the string is the same one. *)
Definition allIdentical (c : jsstring) : Prop :=
  exists d, c = repeat d (length c).

Definition cpfWeights1 : list Z := [10; 9; 8; 7; 6; 5; 4; 3; 2].
Definition cpfWeights2 : list Z := [11; 10; 9; 8; 7; 6; 5; 4; 3; 2].

Definition cpfCheckDigit (ws ds : list Z) : Z :=
  (weightedSum ws ds * 10) mod 11 mod 10.

Definition cnpjWeights1 : list Z := [5; 4; 3; 2; 9; 8; 7; 6; 5; 4; 3; 2].
Definition cnpjWeights2 : list Z := [6; 5; 4; 3; 2; 9; 8; 7; 6; 5; 4; 3; 2].

Definition cnpjCheckDigit (ws ds : list Z) : Z :=
  let r := weightedSum ws ds mod 11 in
  if r <? 2 then 0 else 11 - r.

(** [n] weights descending from [w]. *)
Fixpoint descFrom (w : Z) (n : nat) : list Z :=
  match n with
  | O => []
  | S n' => w :: descFrom (w - 1) n'
  end.

(** The weights the loop visits: [pos] counts down and wraps from 2 to 9. *)
Fixpoint cycleFrom (pos : Z) (n : nat) : list Z :=
  match n with
  | O => []
  | S n' => pos :: cycleFrom (if pos - 1 <? 2 then 9 else pos - 1) n'
  end.

(** The ten all-same-digit identifiers. *)
Definition cnpjDenylist : list jsstring :=
  map (fun d => repeat (digitChar d) 14) [0; 1; 2; 3; 4; 5; 6; 7; 8; 9].

(** The identifier built from nine base digits by appending the two check
    digits of section 4.1, each computed over the digits before it. *)
Definition cpfGenerate (base : list Z) : list Z :=
  let d10 := cpfCheckDigit cpfWeights1 base in
  let d11 := cpfCheckDigit cpfWeights2 (base ++ [d10]) in
  base ++ [d10; d11].

Definition digitString (ds : list Z) : jsstring := map digitChar ds.

(** The string [c] with the unit at index [i] replaced by [d]. *)
Definition mutate (c : jsstring) (i : nat) (d : char) : jsstring :=
  firstn i c ++ d :: skipn (S i) c.

(** [x] is a Number, not NaN, whose sign bit is [neg]. *)
Definition hasSign (neg : bool) (x : number) : Prop :=
  match x with
  | S754_nan => False
  | S754_zero s | S754_infinity s | S754_finite s _ _ => s = neg
  end.

(** The string begins with a digit, or with a dot followed by a digit. *)
Definition startsWithNumeral (w : jsstring) : bool :=
  match w with
  | c :: r =>
      isDigit c
      || ((c =? 46)%N && match r with c2 :: _ => isDigit c2 | [] => false end)
  | [] => false
  end.

(** [sub] occurs in [s]. *)
Definition contains (sub s : jsstring) : Prop :=
  exists a b, s = a ++ sub ++ b.

(** The units a decimal numeral is written with. *)
Definition isNumeralChar (c : char) : bool :=
  (isDigit c || (c =? 46) || (c =? 101) || (c =? 69) || (c =? 43)
   || (c =? 45))%N.

(** [t] is empty or begins with a unit no numeral is written with. *)
Definition startsNonNumeric (t : jsstring) : bool :=
  match t with
  | [] => true
  | c :: _ => negb (isNumeralChar c)
  end.

(** The strings a regular expression matches. *)
Inductive Matches : regex -> jsstring -> Prop :=
  | MEps : Matches Eps []
  | MClass (p : char -> bool) (c : char) :
      p c = true -> Matches (Class p) [c]
  | MSeq (r1 r2 : regex) (s1 s2 : jsstring) :
      Matches r1 s1 -> Matches r2 s2 -> Matches (Seq r1 r2) (s1 ++ s2)
  | MAltL (r1 r2 : regex) (s : jsstring) :
      Matches r1 s -> Matches (Alt r1 r2) s
  | MAltR (r1 r2 : regex) (s : jsstring) :
      Matches r2 s -> Matches (Alt r1 r2) s
  | MStarNil (r : regex) : Matches (Star r) []
  | MStarApp (r : regex) (s1 s2 : jsstring) :
      Matches r s1 -> Matches (Star r) s2 -> Matches (Star r) (s1 ++ s2).

(** The business identifier built from twelve base digits by appending the
    two check digits of [validateCNPJ], each computed over the digits
    before it. *)
Definition cnpjGenerate (base : list Z) : list Z :=
  let d13 := cnpjCheckDigit cnpjWeights1 base in
  let d14 := cnpjCheckDigit cnpjWeights2 (base ++ [d13]) in
  base ++ [d13; d14].

(** The number of occurrences of the unit [c] in [s]. *)
Definition occurrences (c : char) (s : jsstring) : nat :=
  count_occ N.eq_dec s c.

(** A key that orders the Numbers other than NaN as [<] does:
    lexicographically by sign class, exponent and significand. *)
Definition orderKey (x : number) : Z * Z * Z :=
  match x with
  | S754_infinity true => (-2, 0, 0)
  | S754_finite true m e => (-1, - e, - Zpos m)
  | S754_zero _ => (0, 0, 0)
  | S754_nan => (0, 0, 0)
  | S754_finite false m e => (1, e, Zpos m)
  | S754_infinity false => (2, 0, 0)
  end.

Definition keyLt (a b : Z * Z * Z) : Prop :=
  let '(a1, a2, a3) := a in
  let '(b1, b2, b3) := b in
  a1 < b1 \/ (a1 = b1 /\ (a2 < b2 \/ (a2 = b2 /\ a3 < b3))).

(** The remainder a check digit of section 4.1 is taken from. *)
Definition cpfRemainder (ws ds : list Z) : Z := (weightedSum ws ds * 10) mod 11.

(** The single-digit changes the two check digits cannot see, for a digit at
    index [i] (from 0) moved by [delta], [r1] and [r2] being the two
    remainders of the identifier before the change: the leading digit moved
    by one across the remainders 0 and 10 of the first sum (it has weight
    11 in the second sum), or the sixth digit moved by 2 modulo 11 across
    the remainders 0 and 10 of both sums, in opposite directions. *)
Definition undetectedShift (i r1 r2 delta : Z) : Prop :=
  (i = 0 /\ ((r1 = 0 /\ delta = -1) \/ (r1 = 10 /\ delta = 1)))
  \/ (i = 5
      /\ ((r1 = 10 /\ r2 = 0 /\ (delta = 2 \/ delta = -9))
          \/ (r1 = 0 /\ r2 = 10 /\ (delta = -2 \/ delta = 9)))).

Definition changeUndetected (c : jsstring) (i : nat) (d : char) : Prop :=
  undetectedShift (Z.of_nat i)
    (cpfRemainder cpfWeights1 (firstn 9 (digits c)))
    (cpfRemainder cpfWeights2 (firstn 10 (digits c)))
    (digitVal d - nth i (digits c) 0).

(** The text of an amount in the words of the specification: every unit
    other than the digits, the dot and the comma is deleted, and a single
    decimal comma, the first one, becomes a dot. *)
Definition amountUnits : jsstring := str "0123456789.,".

Definition keepAmountUnits (v : jsstring) : jsstring :=
  filter (fun c => existsb (N.eqb c) amountUnits) v.

Definition commaToDot (s : jsstring) : jsstring :=
  let '(a, r) := span (fun c => negb (c =? 44)%N) s in
  match r with
  | [] => s
  | _ :: b => a ++ 46%N :: b
  end.

(** The string begins with a digit, or with a dot or a comma followed by a
    digit. *)
Definition startsWithAmount (k : jsstring) : bool :=
  match k with
  | c :: r =>
      isDigit c
      || (((c =? 46) || (c =? 44))%N
          && match r with c2 :: _ => isDigit c2 | [] => false end)
  | [] => false
  end.

End Spec.

Import Spec.

(* ================================================================== *)
(** * Properties *)
(* ================================================================== *)

(** ** Sample evaluations *)

Example validateCPF_ex1 : validateCPF (str "529.982.247-25") = true.
Proof. vm_compute. reflexivity. Qed.
Example validateCPF_ex2 : validateCPF (str "123.456.789-09") = true.
Proof. vm_compute. reflexivity. Qed.
Example validateCPF_ex3 : validateCPF (str "111.111.111-11") = false.
Proof. vm_compute. reflexivity. Qed.
Example validateCPF_ex4 : validateCPF (str "10000000604") = true.
Proof. vm_compute. reflexivity. Qed.
Example validateCPF_ex5 : validateCPF (str "00000000604") = true.
Proof. vm_compute. reflexivity. Qed.
Example validateCNPJ_ex1 : validateCNPJ (str "11.222.333/0001-81") = true.
Proof. vm_compute. reflexivity. Qed.
Example validateCNPJ_ex2 : validateCNPJ (str "11.222.333/0001-82") = false.
Proof. vm_compute. reflexivity. Qed.
Example validateCNPJ_ex3 : validateCNPJ (str "11444777000161") = true.
Proof. vm_compute. reflexivity. Qed.
Example formatPhone_ex1 : formatPhone (str "11987654321") = str "(11) 98765-4321".
Proof. vm_compute. reflexivity. Qed.
Example validateDocument_ex1 :
  validateDocument (str "123.456.789-09") = Document.mk true (Some CPF) (str "CPF válido").
Proof. vm_compute. reflexivity. Qed.
Example parseFloat_ex1 : parseFloat (str "0.1") = S754_finite false 7205759403792794 (-56).
Proof. vm_compute. reflexivity. Qed.
Example validateNumber_ex1 :
  validateNumber (str "5") (Some (ofZ 10)) None
  = mkResult false (str "Valor mínimo é 10").
Proof. vm_compute. reflexivity. Qed.
Example validateNumber_ex2 :
  validateNumber (str "7.5") None (Some (parseFloat (str "2.5")))
  = mkResult false (str "Valor máximo é 2.5").
Proof. vm_compute. reflexivity. Qed.
Example validateCurrency_ex1 : validateCurrency (str "R$ 1.234,56") = true.
Proof. vm_compute. reflexivity. Qed.
Example validateCurrency_ex2 : validateCurrency (str "R$ ") = false.
Proof. vm_compute. reflexivity. Qed.
Example validateCurrency_ex3 : validateCurrency (str ",5") = true.
Proof. vm_compute. reflexivity. Qed.
Example validateRequired_ex1 :
  validateRequired (str "   ") (str "Name") = mkResult false (str "Name é obrigatório").
Proof. vm_compute. reflexivity. Qed.
Example str_ex : str "é ó" = [233; 32; 243]%N.
Proof. vm_compute. reflexivity. Qed.

(** ** Digits and cleaning *)

Lemma isDigit_range (c : char) :
  isDigit c = true <-> (48 <= c <= 57)%N.
Proof.
  unfold isDigit. rewrite andb_true_iff, !N.leb_le. tauto.
Qed.

Lemma digitVal_range (c : char) :
  isDigit c = true -> 0 <= digitVal c <= 9.
Proof.
  rewrite isDigit_range. unfold digitVal. lia.
Qed.

Lemma digitVal_inj (a b : char) :
  isDigit a = true -> isDigit b = true -> digitVal a = digitVal b -> a = b.
Proof.
  rewrite !isDigit_range. unfold digitVal. lia.
Qed.

Lemma digitChar_isDigit (d : Z) : 0 <= d <= 9 -> isDigit (digitChar d) = true.
Proof.
  intros H. apply isDigit_range. unfold digitChar. lia.
Qed.

Lemma digitVal_digitChar (d : Z) : 0 <= d <= 9 -> digitVal (digitChar d) = d.
Proof.
  intros H. unfold digitVal, digitChar. lia.
Qed.

Lemma isDigit_not_space (c : char) : isDigit c = true -> isWhiteSpace c = false.
Proof.
  rewrite isDigit_range. intros H. unfold isWhiteSpace.
  repeat (apply orb_false_iff; split);
    try (apply N.eqb_neq; lia).
  apply andb_false_iff. left. apply N.leb_gt. lia.
Qed.

Lemma stripNonDigits_digits (s : jsstring) :
  Forall (fun c => isDigit c = true) (stripNonDigits s).
Proof.
  apply Forall_forall. intros c Hc. apply filter_In in Hc. tauto.
Qed.

Lemma stripNonDigits_fixed (c : jsstring) :
  Forall (fun x => isDigit x = true) c -> stripNonDigits c = c.
Proof.
  induction 1 as [|x l Hx _ IH]; simpl; [reflexivity|].
  rewrite Hx. f_equal. exact IH.
Qed.

Lemma stripNonDigits_idem (s : jsstring) :
  stripNonDigits (stripNonDigits s) = stripNonDigits s.
Proof.
  apply stripNonDigits_fixed, stripNonDigits_digits.
Qed.

Lemma stripNonDigits_app (a b : jsstring) :
  stripNonDigits (a ++ b) = stripNonDigits a ++ stripNonDigits b.
Proof.
  apply filter_app.
Qed.

(** ** The degenerate-pattern test *)

Lemma forallb_eqb_repeat (c : char) (r : jsstring) :
  forallb (N.eqb c) r = true <-> r = repeat c (length r).
Proof.
  induction r as [|x r IH]; simpl.
  - tauto.
  - rewrite andb_true_iff, N.eqb_eq, IH. split.
    + intros [-> H]. now rewrite <- H.
    + intros H. injection H as H1 H2. now split.
Qed.

Lemma allIdentical_cons (c : char) (r : jsstring) :
  allIdentical (c :: r) <-> r = repeat c (length r).
Proof.
  unfold allIdentical. simpl. split.
  - intros [d H]. injection H as H1 H2. now subst d.
  - intros H. exists c. now rewrite <- H.
Qed.

Lemma matchesDigitRun_short (n : nat) (s : jsstring) :
  (length s <= n)%nat -> matchesDigitRun n s = false.
Proof.
  induction s as [|c r IH]; simpl; intros H; [reflexivity|].
  rewrite IH by lia.
  replace (n <=? length r)%nat with false by (symmetry; apply Nat.leb_gt; lia).
  now rewrite andb_false_r.
Qed.

Lemma matchesDigitRun_exact (n : nat) (c : jsstring) :
  length c = S n -> Forall (fun x => isDigit x = true) c ->
  (matchesDigitRun n c = true <-> allIdentical c).
Proof.
  destruct c as [|c0 r]; [discriminate|].
  intros Hlen Hd. injection Hlen as Hlen.
  apply Forall_inv in Hd. subst n.
  rewrite allIdentical_cons.
  cbn [matchesDigitRun startsWithRun].
  rewrite matchesDigitRun_short by lia.
  rewrite Hd, Nat.leb_refl, orb_false_r, firstn_all. cbn [andb].
  apply forallb_eqb_repeat.
Qed.

(** ** The weighted sums computed by [rest] *)

Lemma map_toNumberChar (c : jsstring) :
  Forall (fun x => isDigit x = true) c ->
  map toNumberChar c = map Int (digits c).
Proof.
  induction 1 as [|x l Hx _ IH]; simpl; [reflexivity|].
  unfold toNumberChar at 1. rewrite Hx. f_equal. exact IH.
Qed.

Lemma reduceFrom_Int (count : Z) (ds : list Z) :
  forall index acc,
    reduceFrom (fun soma el index => nadd soma (nmul el (Int (count - index))))
      (map Int ds) index (Int acc)
    = Int (acc + weightedSum (descFrom (count - index) (length ds)) ds).
Proof.
  induction ds as [|d r IH]; intros index acc; simpl.
  - f_equal. lia.
  - rewrite IH. f_equal.
    replace (count - (index + 1)) with (count - index - 1) by lia. lia.
Qed.

Lemma weightedSum_nonneg (ws ds : list Z) :
  Forall (fun w => 0 <= w) ws -> Forall (fun d => 0 <= d) ds ->
  0 <= weightedSum ws ds.
Proof.
  intros Hw. revert ds. induction Hw as [|w ws Hw0 _ IH]; intros ds Hd.
  - destruct ds; simpl; lia.
  - destruct Hd as [|d ds Hd0 Hd]; simpl; [lia|].
    specialize (IH _ Hd). nia.
Qed.

Lemma digits_nonneg (c : jsstring) :
  Forall (fun x => isDigit x = true) c -> Forall (fun d => 0 <= d) (digits c).
Proof.
  intros H. unfold digits. apply Forall_map.
  eapply Forall_impl; [|exact H]. intros a Ha. apply digitVal_range in Ha. lia.
Qed.

Lemma Forall_firstn {A} (P : A -> Prop) (n : nat) (l : list A) :
  Forall P l -> Forall P (firstn n l).
Proof.
  intros H. revert n. induction H as [|x l Hx _ IH]; intros [|n]; simpl;
    constructor; auto.
Qed.

Lemma slice_prefix {A} (l : list A) (last : Z) :
  - Z.of_nat (length l) <= last < 0 ->
  slice l 0 last = firstn (Z.to_nat (Z.of_nat (length l) + last)) l.
Proof.
  intros H. unfold slice, relIndex.
  replace (0 <? 0) with false by reflexivity.
  replace (last <? 0) with true by (symmetry; apply Z.ltb_lt; lia).
  rewrite Z.min_l by lia. simpl skipn.
  f_equal. lia.
Qed.

Lemma rest_digits (c : jsstring) (count : Z) :
  length c = 11%nat -> Forall (fun x => isDigit x = true) c ->
  10 <= count <= 11 ->
  rest (map toNumberChar c) count
  = Int (cpfCheckDigit (descFrom count (Z.to_nat (count - 1)))
           (firstn (Z.to_nat (count - 1)) (digits c))).
Proof.
  intros Hlen Hd Hc. unfold rest, reduce.
  rewrite map_toNumberChar by exact Hd.
  assert (Hl : length (map Int (digits c)) = 11%nat)
    by (unfold digits; now rewrite !length_map).
  rewrite slice_prefix by (rewrite Hl; lia).
  rewrite Hl. replace (Z.to_nat (Z.of_nat 11 + (count - 12))) with (Z.to_nat (count - 1)) by lia.
  rewrite firstn_map, reduceFrom_Int.
  assert (Hn : length (firstn (Z.to_nat (count - 1)) (digits c)) = Z.to_nat (count - 1)).
  { rewrite length_firstn. unfold digits. rewrite length_map. lia. }
  rewrite Hn, Z.sub_0_r, Z.add_0_l.
  set (w := weightedSum _ _).
  assert (Hw : 0 <= w).
  { apply weightedSum_nonneg.
    - assert (count = 10 \/ count = 11) as [-> | ->] by lia;
        repeat constructor; lia.
    - apply Forall_firstn, digits_nonneg, Hd. }
  unfold cpfCheckDigit. fold w. cbn [nmul nrem Z.eqb].
  rewrite (Z.rem_mod_nonneg (w * 10) 11) by lia.
  rewrite Z.rem_mod_nonneg; [reflexivity | | lia].
  apply Z.mod_pos_bound. lia.
Qed.

Lemma nth_error_digits (c : jsstring) (i : nat) :
  Forall (fun x => isDigit x = true) c -> (i < length c)%nat ->
  nth_error (map toNumberChar c) i = Some (Int (nth i (digits c) 0)).
Proof.
  intros Hd Hi. rewrite map_toNumberChar by exact Hd.
  rewrite nth_error_map.
  assert (Hi' : (i < length (digits c))%nat) by (unfold digits; now rewrite length_map).
  rewrite (nth_error_nth' _ 0 Hi'). reflexivity.
Qed.

(** [validateCPF] on its cleaned input, reduced to the two comparisons. *)
Lemma validateCPF_unfold (s : jsstring) :
  let c := stripNonDigits s in
  length c = 11%nat ->
  validateCPF s
  = negb (matchesDigitRun 10 c)
    && (cpfCheckDigit cpfWeights1 (firstn 9 (digits c)) =? nth 9 (digits c) 0)
    && (cpfCheckDigit cpfWeights2 (firstn 10 (digits c)) =? nth 10 (digits c) 0).
Proof.
  intros c Hlen. unfold validateCPF. fold c.
  pose proof (stripNonDigits_digits s) as Hd. fold c in Hd.
  rewrite Hlen. cbn [Nat.eqb negb orb].
  destruct (matchesDigitRun 10 c); [reflexivity|].
  rewrite !rest_digits by (assumption || lia).
  rewrite !nth_error_digits by (assumption || lia).
  reflexivity.
Qed.

(** C1. [validateCPF s] holds exactly when the digits of [s] are eleven, not
    all identical, with the tenth digit equal to [(S1*10) mod 11 mod 10] over
    the first nine digits weighted 10..2 and the eleventh equal to
    [(S2*10) mod 11 mod 10] over the first ten weighted 11..2; any other
    number of digits, none included, gives [false].  The function is total:
    it yields a boolean on every string. *)
Theorem validateCPF_spec :
  (forall s : jsstring,
      validateCPF s = true <->
      let c := stripNonDigits s in
      length c = 11%nat
      /\ ~ allIdentical c
      /\ nth 9 (digits c) 0 = cpfCheckDigit cpfWeights1 (firstn 9 (digits c))
      /\ nth 10 (digits c) 0 = cpfCheckDigit cpfWeights2 (firstn 10 (digits c)))
  /\ (forall s : jsstring,
         length (stripNonDigits s) <> 11%nat -> validateCPF s = false)
  /\ validateCPF [] = false.
Proof.
  split; [|split].
  - intros s. cbv zeta. set (c := stripNonDigits s).
    pose proof (stripNonDigits_digits s) as Hd. fold c in Hd.
    destruct (Nat.eq_dec (length c) 11) as [Hlen|Hlen].
    + rewrite validateCPF_unfold by exact Hlen. fold c.
      rewrite !andb_true_iff, negb_true_iff, !Z.eqb_eq.
      rewrite <- (matchesDigitRun_exact (n:=10) Hlen Hd).
      rewrite not_true_iff_false. intuition congruence.
    + unfold validateCPF. fold c.
      replace (length c =? 11)%nat with false by (symmetry; now apply Nat.eqb_neq).
      cbn [negb orb]. split; [discriminate | tauto].
  - intros s Hlen. unfold validateCPF.
    replace (length (stripNonDigits s) =? 11)%nat with false
      by (symmetry; now apply Nat.eqb_neq).
    reflexivity.
  - reflexivity.
Qed.

Lemma validateCPF_spec_witness :
  validateCPF (str "529.982.247-25") = true
  /\ validateCPF (str "1234") = false.
Proof.
  split.
  - apply (proj1 validateCPF_spec (str "529.982.247-25")).
    cbv zeta. split; [reflexivity|]. split.
    + intros [d H]. vm_compute in H. congruence.
    + split; reflexivity.
  - apply (proj1 (proj2 validateCPF_spec)). vm_compute. discriminate.
Defined.

(** ** The summation loop of [validateCNPJ] *)

Lemma string_eqb_eq (a b : jsstring) : string_eqb a b = true <-> a = b.
Proof.
  unfold string_eqb. destruct (list_eq_dec N.eq_dec a b); split; congruence.
Qed.

Lemma parseInt_digit (c : char) :
  isDigit c = true -> parseInt [c] = Int (digitVal c).
Proof.
  intros H. apply isDigit_range in H.
  assert (c = 48 \/ c = 49 \/ c = 50 \/ c = 51 \/ c = 52 \/ c = 53
          \/ c = 54 \/ c = 55 \/ c = 56 \/ c = 57)%N as Hc by lia.
  repeat (destruct Hc as [-> | Hc]; [reflexivity|]). subst c. reflexivity.
Qed.

Lemma charAt_nth (s : jsstring) (k : nat) :
  (k < length s)%nat -> charAt s (Z.of_nat k) = [nth k s 0%N].
Proof.
  intros Hk. unfold charAt.
  replace (Z.of_nat k <? 0) with false by (symmetry; apply Z.ltb_ge; lia).
  replace (Z.of_nat (length s) <=? Z.of_nat k) with false
    by (symmetry; apply Z.leb_gt; lia).
  cbn [orb]. rewrite Nat2Z.id.
  revert k Hk. induction s as [|x r IH]; intros [|k] Hk; simpl in *; try lia.
  - reflexivity.
  - apply IH. lia.
Qed.

Lemma skipn_nth_cons {A} (d : A) (l : list A) (k : nat) :
  (k < length l)%nat -> skipn k l = nth k l d :: skipn (S k) l.
Proof.
  revert k. induction l as [|x r IH]; intros [|k] Hk; simpl in *; try lia.
  - reflexivity.
  - apply IH. lia.
Qed.

Lemma nth_digits (s : jsstring) (k : nat) :
  (k < length s)%nat -> nth k (digits s) 0 = digitVal (nth k s 0%N).
Proof.
  intros Hk. unfold digits.
  rewrite (nth_indep _ 0 (digitVal 0%N)) by (now rewrite length_map).
  apply map_nth.
Qed.

Lemma somaLoop_digits (numeros : jsstring) (tamanho : Z) :
  Forall (fun x => isDigit x = true) numeros ->
  tamanho = Z.of_nat (length numeros) ->
  forall (i : nat) (acc pos : Z),
    (i <= length numeros)%nat ->
    somaLoop i tamanho numeros (Int acc) pos
    = Int (acc + weightedSum (cycleFrom pos i)
                   (skipn (length numeros - i) (digits numeros))).
Proof.
  intros Hd Ht. induction i as [|i IH]; intros acc pos Hi.
  - simpl. f_equal. lia.
  - cbn [somaLoop cycleFrom].
    replace (tamanho - Z.of_nat (S i)) with (Z.of_nat (length numeros - S i)) by lia.
    rewrite charAt_nth by lia.
    rewrite parseInt_digit
      by (rewrite Forall_forall in Hd; apply Hd, nth_In; lia).
    cbn [nmul nadd]. rewrite IH by lia.
    rewrite (skipn_nth_cons 0 (digits numeros) (k := length numeros - S i))
      by (unfold digits; rewrite length_map; lia).
    replace (S (length numeros - S i)) with (length numeros - i)%nat by lia.
    cbn [weightedSum]. rewrite nth_digits by lia. f_equal. lia.
Qed.

Lemma cycleFrom_nonneg (n : nat) :
  forall pos, 0 <= pos -> Forall (fun w => 0 <= w) (cycleFrom pos n).
Proof.
  induction n as [|n IH]; intros pos Hp; simpl; constructor; [lia|].
  apply IH. destruct (pos - 1 <? 2) eqn:E; [lia|]. apply Z.ltb_ge in E. lia.
Qed.

Lemma resultadoOf_Int (ws ds : list Z) :
  0 <= weightedSum ws ds ->
  resultadoOf (Int (weightedSum ws ds)) = Int (cnpjCheckDigit ws ds).
Proof.
  intros Hw. unfold resultadoOf, cnpjCheckDigit. cbn [nrem Z.eqb nlt nsub].
  rewrite Z.rem_mod_nonneg by lia.
  destruct (weightedSum ws ds mod 11 <? 2); reflexivity.
Qed.

Lemma substring_prefix (s : jsstring) (t : Z) :
  0 <= t <= Z.of_nat (length s) -> substring s 0 t = firstn (Z.to_nat t) s.
Proof.
  intros H. unfold substring.
  rewrite (Z.max_l 0 0), (Z.min_l 0), (Z.max_l t 0), (Z.min_l t) by lia.
  rewrite Z.min_l, Z.max_r by lia. rewrite Z.sub_0_r. reflexivity.
Qed.

Lemma substringFrom_suffix (s : jsstring) (t : Z) :
  0 <= t <= Z.of_nat (length s) -> substringFrom s t = skipn (Z.to_nat t) s.
Proof.
  intros H. unfold substringFrom, substring.
  rewrite (Z.max_l t 0), (Z.min_l t), (Z.max_l (Z.of_nat _) 0), Z.min_id by lia.
  rewrite Z.min_l, Z.max_r by lia.
  apply firstn_all2. rewrite length_skipn. lia.
Qed.

(** The check digit the loop and [resultado] compute over the first [n]
    digits of a cleaned identifier. *)
Lemma cnpj_resultado (c : jsstring) (n : nat) :
  Forall (fun x => isDigit x = true) c -> (7 < n <= length c)%nat ->
  resultadoOf
    (somaLoop n (Z.of_nat n) (substring c 0 (Z.of_nat n)) (Int 0) (Z.of_nat n - 7))
  = Int (cnpjCheckDigit (cycleFrom (Z.of_nat n - 7) n) (firstn n (digits c))).
Proof.
  intros Hd Hn.
  rewrite substring_prefix, Nat2Z.id by lia.
  assert (Hl : length (firstn n c) = n) by (rewrite length_firstn; lia).
  rewrite (@somaLoop_digits (firstn n c) (Z.of_nat n))
    by (try apply Forall_firstn; try assumption; lia).
  rewrite Hl, Nat.sub_diag, Z.add_0_l. cbn [skipn].
  unfold digits at 1. rewrite <- firstn_map. fold (digits c).
  apply resultadoOf_Int, weightedSum_nonneg.
  - apply cycleFrom_nonneg. lia.
  - apply Forall_firstn, digits_nonneg, Hd.
Qed.

Lemma parseInt_charAt (s : jsstring) (k : nat) :
  Forall (fun x => isDigit x = true) s -> (k < length s)%nat ->
  parseInt (charAt s (Z.of_nat k)) = Int (digitVal (nth k s 0%N)).
Proof.
  intros Hd Hk. rewrite charAt_nth by exact Hk.
  apply parseInt_digit. rewrite Forall_forall in Hd. apply Hd, nth_In, Hk.
Qed.

Lemma knownInvalidCNPJ_denylist (c : jsstring) :
  knownInvalidCNPJ c = true <-> In c cnpjDenylist.
Proof.
  unfold knownInvalidCNPJ. rewrite !orb_true_iff, !string_eqb_eq.
  change cnpjDenylist with
    [str "00000000000000"; str "11111111111111"; str "22222222222222";
     str "33333333333333"; str "44444444444444"; str "55555555555555";
     str "66666666666666"; str "77777777777777"; str "88888888888888";
     str "99999999999999"].
  cbn [In]. intuition congruence.
Qed.

(** [validateCNPJ] on its cleaned input, reduced to the two comparisons. *)
Lemma validateCNPJ_unfold (s : jsstring) :
  let c := stripNonDigits s in
  length c = 14%nat ->
  validateCNPJ s
  = negb (knownInvalidCNPJ c)
    && (cnpjCheckDigit cnpjWeights1 (firstn 12 (digits c)) =? nth 12 (digits c) 0)
    && (cnpjCheckDigit cnpjWeights2 (firstn 13 (digits c)) =? nth 13 (digits c) 0).
Proof.
  intros c Hlen. unfold validateCNPJ. fold c.
  pose proof (stripNonDigits_digits s) as Hd. fold c in Hd.
  rewrite Hlen. cbn [Nat.eqb negb].
  destruct (knownInvalidCNPJ c); [reflexivity|]. cbn [negb andb].
  change (Z.of_nat 14 - 2) with (Z.of_nat 12).
  change (Z.of_nat 12 + 1) with (Z.of_nat 13).
  rewrite !Nat2Z.id.
  rewrite !cnpj_resultado by (try assumption; lia).
  rewrite substringFrom_suffix, Nat2Z.id by lia.
  assert (Hs : Forall (fun x => isDigit x = true) (skipn 12 c)).
  { rewrite <- (firstn_skipn 12 c) in Hd. apply Forall_app in Hd. tauto. }
  assert (Hl : length (skipn 12 c) = 2%nat) by (rewrite length_skipn; lia).
  change (charAt (skipn 12 c) 0) with (charAt (skipn 12 c) (Z.of_nat 0)).
  change (charAt (skipn 12 c) 1) with (charAt (skipn 12 c) (Z.of_nat 1)).
  rewrite !parseInt_charAt by (try assumption; lia).
  rewrite !nth_skipn. cbn [Nat.add].
  rewrite <- !nth_digits by lia.
  cbn [strictEq].
  change (cycleFrom (Z.of_nat 12 - 7) 12) with cnpjWeights1.
  change (cycleFrom (Z.of_nat 13 - 7) 13) with cnpjWeights2.
  destruct (_ =? nth 12 _ _); cbn [negb]; [|reflexivity].
  destruct (_ =? nth 13 _ _); reflexivity.
Qed.

(** C2. [validateCNPJ s] holds exactly when the digits of [s] are fourteen,
    are none of the ten all-same-digit identifiers, and the thirteenth and
    fourteenth digits equal the check digits computed over the first twelve
    digits with weights 5,4,3,2,9,8,7,6,5,4,3,2 and over the first thirteen
    with weights 6,5,4,3,2,9,8,7,6,5,4,3,2, a check digit being 0 when the
    weighted sum modulo 11 is below 2 and 11 minus it otherwise. *)
Theorem validateCNPJ_spec (s : jsstring) :
  validateCNPJ s = true <->
  let c := stripNonDigits s in
  length c = 14%nat
  /\ ~ In c cnpjDenylist
  /\ nth 12 (digits c) 0 = cnpjCheckDigit cnpjWeights1 (firstn 12 (digits c))
  /\ nth 13 (digits c) 0 = cnpjCheckDigit cnpjWeights2 (firstn 13 (digits c)).
Proof.
  cbv zeta. set (c := stripNonDigits s).
  destruct (Nat.eq_dec (length c) 14) as [Hlen|Hlen].
  - rewrite validateCNPJ_unfold by exact Hlen. fold c.
    rewrite !andb_true_iff, negb_true_iff, !Z.eqb_eq.
    rewrite <- knownInvalidCNPJ_denylist, not_true_iff_false.
    intuition congruence.
  - unfold validateCNPJ. fold c.
    replace (length c =? 14)%nat with false by (symmetry; now apply Nat.eqb_neq).
    cbn [negb]. split; [discriminate | tauto].
Qed.

Lemma validateCNPJ_spec_witness :
  validateCNPJ (str "11.222.333/0001-81") = true.
Proof.
  apply (proj2 (validateCNPJ_spec (str "11.222.333/0001-81"))).
  cbv zeta. split; [reflexivity|]. split.
  - vm_compute. intuition discriminate.
  - split; reflexivity.
Defined.

(** ** Check-digit generation and single-digit changes *)

Lemma cpfCheckDigit_range (ws ds : list Z) : 0 <= cpfCheckDigit ws ds <= 9.
Proof.
  unfold cpfCheckDigit.
  pose proof (Z.mod_pos_bound ((weightedSum ws ds * 10) mod 11) 10). lia.
Qed.

Lemma digits_digitString (ds : list Z) :
  Forall (fun d => 0 <= d <= 9) ds -> digits (digitString ds) = ds.
Proof.
  induction 1 as [|d l Hd _ IH]; simpl; [reflexivity|].
  rewrite digitVal_digitChar by exact Hd. f_equal. exact IH.
Qed.

Lemma digitString_digits (ds : list Z) :
  Forall (fun d => 0 <= d <= 9) ds ->
  Forall (fun x => isDigit x = true) (digitString ds).
Proof.
  intros H. unfold digitString. apply Forall_map.
  eapply Forall_impl; [|exact H]. intros a Ha. now apply digitChar_isDigit.
Qed.

(** Acceptance of a string of eleven digits, as the two comparisons. *)
Lemma validateCPF_digits_iff (c : jsstring) :
  Forall (fun x => isDigit x = true) c -> length c = 11%nat ->
  (validateCPF c = true
   <-> ~ allIdentical c
       /\ cpfCheckDigit cpfWeights1 (firstn 9 (digits c)) = nth 9 (digits c) 0
       /\ cpfCheckDigit cpfWeights2 (firstn 10 (digits c))
          = nth 10 (digits c) 0).
Proof.
  intros Hd Hlen.
  pose proof (validateCPF_unfold c) as E. cbv zeta in E.
  rewrite stripNonDigits_fixed in E by exact Hd.
  rewrite (E Hlen), !andb_true_iff, negb_true_iff, !Z.eqb_eq.
  rewrite <- (matchesDigitRun_exact (n:=10) Hlen Hd), not_true_iff_false.
  tauto.
Qed.

Lemma cpfGenerate_accepted (base : list Z) :
  length base = 9%nat -> Forall (fun d => 0 <= d <= 9) base ->
  ~ allIdentical (digitString (cpfGenerate base)) ->
  validateCPF (digitString (cpfGenerate base)) = true.
Proof.
  intros Hlen Hb Hnot.
  assert (Hg : Forall (fun d => 0 <= d <= 9) (cpfGenerate base)).
  { unfold cpfGenerate. apply Forall_app. split; [exact Hb|].
    repeat constructor; apply cpfCheckDigit_range. }
  apply validateCPF_digits_iff; [now apply digitString_digits | |].
  - unfold digitString, cpfGenerate.
    rewrite length_map, length_app, Hlen. reflexivity.
  - rewrite digits_digitString by exact Hg.
    split; [exact Hnot|].
    do 10 (destruct base as [|? base]; try discriminate Hlen).
    split; reflexivity.
Qed.

Lemma mutate_digits (c : jsstring) (i : nat) (d : char) :
  Forall (fun x => isDigit x = true) c -> isDigit d = true ->
  Forall (fun x => isDigit x = true) (mutate c i d).
Proof.
  intros Hc Hd. unfold mutate. apply Forall_app. split.
  - now apply Forall_firstn.
  - constructor; [exact Hd|].
    rewrite <- (firstn_skipn (S i) c) in Hc. apply Forall_app in Hc. tauto.
Qed.

Lemma mutate_length (c : jsstring) (i : nat) (d : char) :
  (i < length c)%nat -> length (mutate c i d) = length c.
Proof.
  intros Hi. unfold mutate.
  rewrite length_app, length_firstn. cbn [length]. rewrite length_skipn. lia.
Qed.

(** The two check equations of an accepted eleven-digit string. *)
Lemma validateCPF_checks (c : jsstring) :
  Forall (fun x => isDigit x = true) c -> validateCPF c = true ->
  length c = 11%nat
  /\ (weightedSum cpfWeights1 (firstn 9 (digits c)) * 10) mod 11 mod 10
     = nth 9 (digits c) 0
  /\ (weightedSum cpfWeights2 (firstn 10 (digits c)) * 10) mod 11 mod 10
     = nth 10 (digits c) 0.
Proof.
  intros Hd Hv.
  destruct (Nat.eq_dec (length c) 11) as [Hlen|Hlen].
  - apply (validateCPF_digits_iff Hd Hlen) in Hv.
    unfold cpfCheckDigit in Hv. tauto.
  - unfold validateCPF in Hv. rewrite stripNonDigits_fixed in Hv by exact Hd.
    replace (length c =? 11)%nat with false in Hv
      by (symmetry; now apply Nat.eqb_neq).
    discriminate Hv.
Qed.

Ltac digit_bounds :=
  repeat match goal with
  | H : Forall _ (_ :: _) |- _ =>
      let H1 := fresh "Hb" in
      let H2 := fresh "Hf" in
      pose proof (Forall_inv H) as H1; pose proof (Forall_inv_tail H) as H2;
      clear H; cbv beta in H1; apply digitVal_range in H1
  | H : Forall _ [] |- _ => clear H
  end.

(** Which moves of one of the first nine digits keep both check equations:
    [S1] and [S2] are the two weighted sums before the move, in which the
    digit at index [i] has weights [10 - i] and [11 - i]. *)
Lemma check_equations_after_shift (i S1 S2 delta x9 x10 : Z) :
  0 <= i <= 8 -> -9 <= delta <= 9 -> delta <> 0 ->
  (S1 * 10) mod 11 mod 10 = x9 ->
  (S2 * 10) mod 11 mod 10 = x10 ->
  ((((S1 + (10 - i) * delta) * 10) mod 11 mod 10 = x9
    /\ ((S2 + (11 - i) * delta) * 10) mod 11 mod 10 = x10)
   <-> undetectedShift i ((S1 * 10) mod 11) ((S2 * 10) mod 11) delta).
Proof.
  intros Hi Hd Hne V1 V2. unfold undetectedShift.
  assert (i = 0 \/ i = 1 \/ i = 2 \/ i = 3 \/ i = 4 \/ i = 5 \/ i = 6
          \/ i = 7 \/ i = 8) as Hc by lia.
  assert (delta = -9 \/ delta = -8 \/ delta = -7 \/ delta = -6 \/ delta = -5
          \/ delta = -4 \/ delta = -3 \/ delta = -2 \/ delta = -1 \/ delta = 1
          \/ delta = 2 \/ delta = 3 \/ delta = 4 \/ delta = 5 \/ delta = 6
          \/ delta = 7 \/ delta = 8 \/ delta = 9) as Hdl by lia.
  clear Hi Hd Hne.
  decompose [or] Hc; subst i; decompose [or] Hdl; subst delta;
    Z.to_euclidean_division_equations; lia.
Qed.

(** One of the first nine digits of an accepted string is changed: the
    goal relates acceptance of the changed string to [undetectedShift],
    [V1], [V2] being the check equations before the change, [ci] the digit
    changed to [d] and [iz] its index. *)
Ltac shifted V1 V2 iz d ci :=
  match type of V1 with
  | (?S1 * 10) mod 11 mod 10 = ?x9 =>
      match type of V2 with
      | (?S2 * 10) mod 11 mod 10 = ?x10 =>
          let HC := fresh "HC" in
          assert (HC : 0 <= iz <= 8) by lia;
          pose proof (@check_equations_after_shift iz S1 S2
                        (digitVal d - digitVal ci) x9 x10 HC
                        ltac:(lia) ltac:(lia) V1 V2) as HS;
          match goal with
          | |- (_ /\ (?T1 * 10) mod 11 mod 10 = _
                /\ (?T2 * 10) mod 11 mod 10 = _) <-> _ =>
              replace T1 with (S1 + (10 - iz) * (digitVal d - digitVal ci))
                by ring;
              replace T2 with (S2 + (11 - iz) * (digitVal d - digitVal ci))
                by ring
          end;
          rewrite <- HS; split;
          [ tauto
          | intros HM; split; [|exact HM];
            apply HS in HM; unfold undetectedShift in HM;
            intros [dd E]; cbn [length repeat] in E;
            injection E; intros; subst;
            Z.to_euclidean_division_equations; lia ]
      end
  end.

(** Exactly which single-digit changes of an accepted string are accepted. *)
Lemma cpf_change_accepted_iff (c : jsstring) (i : nat) (d : char) :
  length c = 11%nat ->
  Forall (fun x => isDigit x = true) c ->
  validateCPF c = true ->
  (i < 11)%nat -> isDigit d = true -> d <> nth i c 0%N ->
  (validateCPF (mutate c i d) = true <-> changeUndetected c i d).
Proof.
  intros Hlen Hc Hv Hi Hd Hne.
  rewrite (validateCPF_digits_iff (@mutate_digits c i d Hc Hd))
    by (rewrite mutate_length; lia).
  apply validateCPF_checks in Hv; [|exact Hc].
  destruct Hv as (_ & V1 & V2).
  assert (Hy : digitVal d <> digitVal (nth i c 0%N)).
  { intros E. apply Hne. apply digitVal_inj; try assumption.
    rewrite Forall_forall in Hc. apply Hc, nth_In. lia. }
  pose proof (digitVal_range d Hd) as Hdr.
  destruct c as [|c0 [|c1 [|c2 [|c3 [|c4 [|c5 [|c6 [|c7 [|c8 [|c9 [|c10 [|? ?]]]]]]]]]]]];
    try discriminate Hlen.
  clear Hlen. digit_bounds.
  unfold changeUndetected, cpfRemainder, cpfCheckDigit.
  destruct i as [|[|[|[|[|[|[|[|[|[|[|i]]]]]]]]]]]; try lia;
    cbn [mutate firstn skipn app digits map nth cpfWeights1 cpfWeights2
         weightedSum] in *.
  - change (Z.of_nat 0) with 0. shifted V1 V2 0 d c0.
  - change (Z.of_nat 1) with 1. shifted V1 V2 1 d c1.
  - change (Z.of_nat 2) with 2. shifted V1 V2 2 d c2.
  - change (Z.of_nat 3) with 3. shifted V1 V2 3 d c3.
  - change (Z.of_nat 4) with 4. shifted V1 V2 4 d c4.
  - change (Z.of_nat 5) with 5. shifted V1 V2 5 d c5.
  - change (Z.of_nat 6) with 6. shifted V1 V2 6 d c6.
  - change (Z.of_nat 7) with 7. shifted V1 V2 7 d c7.
  - change (Z.of_nat 8) with 8. shifted V1 V2 8 d c8.
  - change (Z.of_nat 9) with 9. unfold undetectedShift.
    split; [intros (_ & M1 & _); congruence | lia].
  - change (Z.of_nat 10) with 10. unfold undetectedShift.
    split; [intros (_ & _ & M2); congruence | lia].
Qed.

Lemma cpf_change_detected (c : jsstring) (i : nat) (d : char) :
  length c = 11%nat ->
  Forall (fun x => isDigit x = true) c ->
  validateCPF c = true ->
  (i < 11)%nat -> isDigit d = true -> d <> nth i c 0%N ->
  ((i <> 0%nat /\ i <> 5%nat)
   \/ nth 9 (digits c) 0 <> 0
   \/ ((1 <= i)%nat /\ nth 10 (digits c) 0 <> 0)) ->
  validateCPF (mutate c i d) = false.
Proof.
  intros Hlen Hc Hv Hi Hd Hne Hcond.
  apply not_true_iff_false. intros Hm.
  apply (cpf_change_accepted_iff Hlen Hc Hv Hi Hd Hne) in Hm.
  apply validateCPF_checks in Hv; [|exact Hc].
  destruct Hv as (_ & V1 & V2).
  unfold changeUndetected, cpfRemainder, undetectedShift in Hm.
  set (r1 := (weightedSum cpfWeights1 (firstn 9 (digits c)) * 10) mod 11) in *.
  set (r2 := (weightedSum cpfWeights2 (firstn 10 (digits c)) * 10) mod 11) in *.
  assert (E9 : r1 = 0 \/ r1 = 10 -> nth 9 (digits c) 0 = 0)
    by (intros [E|E]; rewrite E in V1; rewrite <- V1; reflexivity).
  assert (E10 : r2 = 0 \/ r2 = 10 -> nth 10 (digits c) 0 = 0)
    by (intros [E|E]; rewrite E in V2; rewrite <- V2; reflexivity).
  clearbody r1 r2. lia.
Qed.

(** C3 (as amended). Nine base digits completed by their two computed check
    digits are accepted whenever the eleven digits are not all identical.
    Changing one digit of an accepted eleven-digit string to a different
    digit is rejected, except in exactly two situations, in which the
    changed string is accepted: the leading digit is lowered by 1 when the
    first remainder [(S1*10) mod 11] is 0, or raised by 1 when it is 10; or
    the sixth digit is moved by +2 or -9 when the two remainders are 10 and
    0, or by -2 or +9 when they are 0 and 10.  So every change of a digit
    other than the first and the sixth is rejected, every change is
    rejected when the first check digit is not 0, and every change of the
    sixth digit is rejected when the second check digit is not 0.  Both
    exceptions occur: 00000003700 and 00000203700 are accepted. *)
Theorem cpf_generated_accepted_changes_detected :
  (forall base : list Z,
      length base = 9%nat -> Forall (fun d => 0 <= d <= 9) base ->
      ~ allIdentical (digitString (cpfGenerate base)) ->
      validateCPF (digitString (cpfGenerate base)) = true)
  /\ (forall (c : jsstring) (i : nat) (d : char),
         length c = 11%nat ->
         Forall (fun x => isDigit x = true) c ->
         validateCPF c = true ->
         (i < 11)%nat -> isDigit d = true -> d <> nth i c 0%N ->
         (validateCPF (mutate c i d) = false <-> ~ changeUndetected c i d))
  /\ (forall (c : jsstring) (i : nat) (d : char),
         length c = 11%nat ->
         Forall (fun x => isDigit x = true) c ->
         validateCPF c = true ->
         (i < 11)%nat -> isDigit d = true -> d <> nth i c 0%N ->
         ((i <> 0%nat /\ i <> 5%nat)
          \/ nth 9 (digits c) 0 <> 0
          \/ ((1 <= i)%nat /\ nth 10 (digits c) 0 <> 0)) ->
         validateCPF (mutate c i d) = false)
  /\ (validateCPF (str "00000003700") = true
      /\ mutate (str "00000003700") 5 50%N = str "00000203700"
      /\ validateCPF (str "00000203700") = true).
Proof.
  split; [exact cpfGenerate_accepted|].
  split.
  - intros c i d Hlen Hc Hv Hi Hd Hne.
    rewrite <- (cpf_change_accepted_iff Hlen Hc Hv Hi Hd Hne).
    symmetry. apply not_true_iff_false.
  - split; [exact cpf_change_detected|].
    repeat split; vm_compute; reflexivity.
Qed.

Lemma cpf_generated_accepted_changes_detected_witness :
  validateCPF (digitString (cpfGenerate [5; 2; 9; 9; 8; 2; 2; 4; 7])) = true
  /\ (validateCPF (mutate (str "52998224725") 0 52%N) = false
      <-> ~ changeUndetected (str "52998224725") 0 52%N)
  /\ validateCPF (mutate (str "52998224725") 3 48%N) = false.
Proof.
  split; [|split].
  - apply (proj1 cpf_generated_accepted_changes_detected).
    + reflexivity.
    + repeat constructor; lia.
    + intros [d H]. vm_compute in H. congruence.
  - apply (proj1 (proj2 cpf_generated_accepted_changes_detected)).
    + reflexivity.
    + repeat constructor.
    + vm_compute. reflexivity.
    + lia.
    + reflexivity.
    + vm_compute. discriminate.
  - apply (proj1 (proj2 (proj2 cpf_generated_accepted_changes_detected))).
    + reflexivity.
    + repeat constructor.
    + vm_compute. reflexivity.
    + lia.
    + reflexivity.
    + vm_compute. discriminate.
    + left. split; discriminate.
Defined.

(** C3, as stated, fails: 10000000604 is accepted (its first weighted sum is
    22, remainder 0, check digit 0), and lowering its leading digit to 0 gives
    00000000604, accepted as well (sum 12, remainder 10, check digit 0 again;
    the leading digit has weight 11 in the second sum). *)
Lemma cpf_change_undetected :
  let c := str "10000000604" in
  validateCPF c = true
  /\ isDigit 48%N = true
  /\ 48%N <> nth 0 c 0%N
  /\ mutate c 0 48%N = str "00000000604"
  /\ validateCPF (mutate c 0 48%N) = true.
Proof.
  cbv zeta. repeat split; try (vm_compute; reflexivity).
  vm_compute. discriminate.
Qed.

(** ** The unified classifier *)

(** C4. When the digits of the input are eleven, [validateDocument] reports
    type CPF with the verdict of [validateCPF] on that input; when they are
    fourteen, type CNPJ with the verdict of [validateCNPJ]; for any other
    count it reports invalid, no type, and the message naming the two
    required lengths.  A result is produced for every input. *)
Theorem validateDocument_spec (s : jsstring) :
  let c := stripNonDigits s in
  (length c = 11%nat ->
     Document.type (validateDocument s) = Some CPF
     /\ Document.isValid (validateDocument s) = validateCPF s)
  /\ (length c = 14%nat ->
        Document.type (validateDocument s) = Some CNPJ
        /\ Document.isValid (validateDocument s) = validateCNPJ s)
  /\ (length c <> 11%nat -> length c <> 14%nat ->
        validateDocument s
        = Document.mk false None
            (str "Documento deve ter 11 dígitos (CPF) ou 14 dígitos (CNPJ)")).
Proof.
  cbv zeta. unfold validateDocument. split; [|split].
  - intros H. rewrite H. split; reflexivity.
  - intros H. rewrite H. split; reflexivity.
  - intros H11 H14.
    apply Nat.eqb_neq in H11, H14. rewrite H11, H14. reflexivity.
Qed.

Lemma validateDocument_spec_witness :
  (Document.type (validateDocument (str "123.456.789-09")) = Some CPF
   /\ Document.isValid (validateDocument (str "123.456.789-09"))
      = validateCPF (str "123.456.789-09"))
  /\ (Document.type (validateDocument (str "11.222.333/0001-81")) = Some CNPJ
      /\ Document.isValid (validateDocument (str "11.222.333/0001-81"))
         = validateCNPJ (str "11.222.333/0001-81"))
  /\ validateDocument (str "12345")
     = Document.mk false None
         (str "Documento deve ter 11 dígitos (CPF) ou 14 dígitos (CNPJ)").
Proof.
  split; [|split].
  - apply (proj1 (validateDocument_spec (str "123.456.789-09"))). reflexivity.
  - apply (proj1 (proj2 (validateDocument_spec (str "11.222.333/0001-81")))).
    reflexivity.
  - apply (proj2 (proj2 (validateDocument_spec (str "12345"))));
      vm_compute; discriminate.
Defined.

(** ** Phone formatting *)

Lemma digitsAt_all (s : jsstring) :
  Forall (fun x => isDigit x = true) s -> digitsAt (length s) s = true.
Proof.
  intros H. unfold digitsAt. rewrite Nat.leb_refl, firstn_all. cbn [andb].
  apply forallb_forall. rewrite Forall_forall in H. exact H.
Qed.

(** On a string made of exactly [n1 + n2 + n3] digits the pattern matches at
    the start and consumes everything. *)
Lemma replaceGroups3_exact (n1 n2 n3 : nat)
    (subst : jsstring -> jsstring -> jsstring -> jsstring) (s : jsstring) :
  Forall (fun x => isDigit x = true) s ->
  length s = (n1 + n2 + n3)%nat -> (0 < n1 + n2 + n3)%nat ->
  replaceGroups3 n1 n2 n3 subst s
  = subst (firstn n1 s) (firstn n2 (skipn n1 s)) (skipn (n1 + n2) s).
Proof.
  intros Hd Hlen Hpos.
  destruct s as [|c r]; [simpl in Hlen; lia|].
  cbn [replaceGroups3]. rewrite <- Hlen, digitsAt_all by exact Hd.
  rewrite skipn_all, app_nil_r.
  f_equal. apply firstn_all2. rewrite length_skipn. lia.
Qed.

(** C6. [formatPhone] renders exactly ten digits as [(DD) DDDD-DDDD] and
    exactly eleven as [(DD) DDDDD-DDDD], the digits of the input in order;
    with any other number of digits the input comes back unchanged. *)
Theorem formatPhone_spec :
  (forall s : jsstring,
      let c := stripNonDigits s in
      (length c = 10%nat ->
         formatPhone s
         = str "(" ++ firstn 2 c ++ str ") " ++ firstn 4 (skipn 2 c)
           ++ str "-" ++ skipn 6 c)
      /\ (length c = 11%nat ->
            formatPhone s
            = str "(" ++ firstn 2 c ++ str ") " ++ firstn 5 (skipn 2 c)
              ++ str "-" ++ skipn 7 c)
      /\ (length c <> 10%nat -> length c <> 11%nat -> formatPhone s = s))
  /\ formatPhone (str "11987654321") = str "(11) 98765-4321"
  /\ formatPhone (str "1133224455") = str "(11) 3322-4455"
  /\ formatPhone (str "123") = str "123".
Proof.
  split; [|repeat split; vm_compute; reflexivity].
  intros s c. pose proof (stripNonDigits_digits s) as Hd. fold c in Hd.
  unfold formatPhone. fold c. repeat split.
  - intros H. rewrite H. cbn [Nat.eqb].
    rewrite replaceGroups3_exact by (try assumption; lia). reflexivity.
  - intros H. rewrite H. cbn [Nat.eqb].
    rewrite replaceGroups3_exact by (try assumption; lia). reflexivity.
  - intros H10 H11.
    apply Nat.eqb_neq in H10, H11. rewrite H10, H11. reflexivity.
Qed.

Lemma formatPhone_spec_witness :
  formatPhone (str "(11) 3322-4455") = str "(11) 3322-4455"
  /\ formatPhone (str "11 98765 4321") = str "(11) 98765-4321"
  /\ formatPhone (str "12-3") = str "12-3".
Proof.
  split; [|split].
  - rewrite (proj1 (proj1 formatPhone_spec (str "(11) 3322-4455")));
      reflexivity.
  - rewrite (proj1 (proj2 (proj1 formatPhone_spec (str "11 98765 4321"))));
      reflexivity.
  - apply (proj2 (proj2 (proj1 formatPhone_spec (str "12-3"))));
      vm_compute; discriminate.
Defined.

(** ** Dependence on the digits only *)

Lemma validateCPF_clean (s : jsstring) :
  validateCPF s = validateCPF (stripNonDigits s).
Proof.
  unfold validateCPF. now rewrite stripNonDigits_idem.
Qed.

Lemma validateCNPJ_clean (s : jsstring) :
  validateCNPJ s = validateCNPJ (stripNonDigits s).
Proof.
  unfold validateCNPJ. now rewrite stripNonDigits_idem.
Qed.

Lemma validateDocument_clean (s : jsstring) :
  validateDocument s = validateDocument (stripNonDigits s).
Proof.
  unfold validateDocument.
  now rewrite stripNonDigits_idem, <- validateCPF_clean, <- validateCNPJ_clean.
Qed.

(** C9. Each identifier validator gives on [s] what it gives on the digits
    of [s], [validateDocument] in all three fields; so two inputs with the
    same digits in the same order, such as an identifier with and without a
    non-digit unit inserted anywhere, are validated alike. *)
Theorem validators_depend_on_digits :
  (forall s, validateCPF s = validateCPF (stripNonDigits s))
  /\ (forall s, validateCNPJ s = validateCNPJ (stripNonDigits s))
  /\ (forall s, validateDocument s = validateDocument (stripNonDigits s))
  /\ (forall s s',
         stripNonDigits s = stripNonDigits s' ->
         validateCPF s = validateCPF s'
         /\ validateCNPJ s = validateCNPJ s'
         /\ validateDocument s = validateDocument s')
  /\ (forall (a b : jsstring) (p : char),
         isDigit p = false ->
         validateCPF (a ++ p :: b) = validateCPF (a ++ b)
         /\ validateCNPJ (a ++ p :: b) = validateCNPJ (a ++ b)
         /\ validateDocument (a ++ p :: b) = validateDocument (a ++ b)).
Proof.
  assert (Hsame : forall s s',
             stripNonDigits s = stripNonDigits s' ->
             validateCPF s = validateCPF s'
             /\ validateCNPJ s = validateCNPJ s'
             /\ validateDocument s = validateDocument s').
  { intros s s' H.
    rewrite (validateCPF_clean s), (validateCPF_clean s').
    rewrite (validateCNPJ_clean s), (validateCNPJ_clean s').
    rewrite (validateDocument_clean s), (validateDocument_clean s').
    rewrite H. auto. }
  split; [exact validateCPF_clean|].
  split; [exact validateCNPJ_clean|].
  split; [exact validateDocument_clean|].
  split; [exact Hsame|].
  intros a b p Hp. apply Hsame.
  rewrite !stripNonDigits_app. f_equal.
  unfold stripNonDigits. cbn [filter]. now rewrite Hp.
Qed.

Lemma validators_depend_on_digits_witness :
  (validateCPF (str "529.982.247-25") = validateCPF (str "52998224725")
   /\ validateCNPJ (str "529.982.247-25") = validateCNPJ (str "52998224725")
   /\ validateDocument (str "529.982.247-25")
      = validateDocument (str "52998224725"))
  /\ (validateCPF (str "529" ++ 46%N :: str "98224725")
      = validateCPF (str "529" ++ str "98224725")
      /\ validateCNPJ (str "529" ++ 46%N :: str "98224725")
         = validateCNPJ (str "529" ++ str "98224725")
      /\ validateDocument (str "529" ++ 46%N :: str "98224725")
         = validateDocument (str "529" ++ str "98224725")).
Proof.
  split.
  - apply (proj1 (proj2 (proj2 (proj2 validators_depend_on_digits)))).
    reflexivity.
  - apply (proj2 (proj2 (proj2 (proj2 validators_depend_on_digits)))).
    reflexivity.
Defined.

(** ** Rounding never yields NaN and keeps the sign *)

Lemma shr_1_nonneg (mrs : shr_record) :
  0 <= shr_m mrs -> 0 <= shr_m (shr_1 mrs).
Proof.
  destruct mrs as [m r t]. cbn [shr_m].
  destruct m as [|p|p]; [| |lia]; intros _; cbn [shr_1].
  - cbn. lia.
  - destruct p; cbn; lia.
Qed.

Lemma iter_pos_invariant {A} (P : A -> Prop) (f : A -> A) :
  (forall x, P x -> P (f x)) ->
  forall (n : positive) (x : A), P x -> P (iter_pos f n x).
Proof.
  intros Hf. induction n as [n IH|n IH|]; intros x Hx; cbn [iter_pos]; auto.
Qed.

Lemma shr_nonneg (mrs : shr_record) (e n : Z) :
  0 <= shr_m mrs -> 0 <= shr_m (fst (shr mrs e n)).
Proof.
  intros H. unfold shr. destruct n; cbn [fst]; try exact H.
  apply iter_pos_invariant with (P := fun r => 0 <= shr_m r);
    [exact shr_1_nonneg | exact H].
Qed.

Lemma shr_fexp_nonneg (m e : Z) (l : location) :
  0 <= m -> 0 <= shr_m (fst (shr_fexp prec emax m e l)).
Proof.
  intros H. unfold shr_fexp. apply shr_nonneg.
  destruct l as [|[ | | ]]; exact H.
Qed.

Lemma round_nearest_even_nonneg (m : Z) (l : location) :
  0 <= m -> 0 <= round_nearest_even m l.
Proof.
  intros H. unfold round_nearest_even.
  destruct l as [|[ | | ]]; try destruct (Z.even m); lia.
Qed.

Lemma binary_round_aux_sign (sx : bool) (mx ex : Z) (lx : location) :
  0 <= mx -> hasSign sx (binary_round_aux prec emax sx mx ex lx).
Proof.
  intros H. unfold binary_round_aux.
  pose proof (shr_fexp_nonneg ex lx H) as H1.
  destruct (shr_fexp prec emax mx ex lx) as [mrs' e']. cbn [fst] in H1.
  pose proof (round_nearest_even_nonneg (loc_of_shr_record mrs') H1) as H2.
  pose proof (shr_fexp_nonneg e' loc_Exact H2) as H3.
  destruct (shr_fexp prec emax _ e' loc_Exact) as [mrs'' e'']. cbn [fst] in H3.
  destruct (shr_m mrs'') as [|p|p]; [reflexivity | | lia].
  destruct (e'' <=? emax - prec); reflexivity.
Qed.

Lemma binary_round_sign (sx : bool) (mx : positive) (ex : Z) :
  hasSign sx (binary_round prec emax sx mx ex).
Proof.
  unfold binary_round. destruct (shl_align _ _ _) as [mz ez].
  apply binary_round_aux_sign. lia.
Qed.

Lemma roundDecimal_sign (neg : bool) (m : N) (e : Z) :
  hasSign neg (roundDecimal neg m e).
Proof.
  unfold roundDecimal. destruct m as [|p]; [reflexivity|].
  destruct (0 <=? e) eqn:He; [apply binary_round_sign|].
  apply Z.leb_gt in He.
  destruct (SFdiv_core_binary prec emax (Z.pos p) 0 (10 ^ (- e)) 0)
    as [[q e'] l] eqn:Hq.
  apply binary_round_aux_sign.
  unfold SFdiv_core_binary in Hq.
  set (m' := match _ with Z.pos _ => _ | 0 => _ | Z.neg _ => _ end) in Hq.
  assert (Hm : 0 <= m').
  { subst m'. destruct (_ - _ - _); try lia. apply Z.shiftl_nonneg. lia. }
  assert (Hp : 0 < 10 ^ (- e)) by (apply Z.pow_pos_nonneg; lia).
  pose proof (Z.div_pos m' (10 ^ (- e)) Hm Hp) as Hdiv.
  unfold Z.div in Hdiv. destruct (Z.div_eucl m' (10 ^ (- e))) as [q0 r0].
  cbn [fst] in Hdiv. injection Hq as <- _ _. exact Hdiv.
Qed.

Lemma hasSign_not_nan (neg : bool) (x : number) :
  hasSign neg x -> isNaN x = false.
Proof.
  destruct x; cbn; intros H; try reflexivity. contradiction.
Qed.

Lemma hasSign_nonneg (x : number) :
  hasSign false x -> ge x (ofZ 0) = true.
Proof.
  destruct x as [s|s| |s m e]; cbn [hasSign]; intros H;
    try contradiction; subst s; reflexivity.
Qed.

(** ** Numeral prefixes *)

Lemma scanDecimalLiteral_sign (u r : jsstring) (x : number) :
  scanDecimalLiteral u = Some (x, r) -> hasSign (fst (scanSign u)) x.
Proof.
  unfold scanDecimalLiteral.
  destruct (scanSign u) as [neg t1]. cbn [fst].
  destruct (startsWith (str "Infinity") t1).
  - intros H. injection H as <- _. reflexivity.
  - destruct (span isDigit t1) as [ip t2].
    destruct (scanFraction ip t2) as [fp t3].
    destruct (ip ++ fp) as [|d ds]; [discriminate|].
    destruct (scanExponent t3) as [ex t4].
    intros H. injection H as <- _. apply roundDecimal_sign.
Qed.

Lemma parseFloat_nan (s : jsstring) :
  isNaN (parseFloat s) = true
  <-> scanDecimalLiteral (dropWhile isWhiteSpace s) = None.
Proof.
  unfold parseFloat.
  destruct (scanDecimalLiteral (dropWhile isWhiteSpace s)) as [[x r]|] eqn:E.
  - apply scanDecimalLiteral_sign, hasSign_not_nan in E.
    rewrite E. split; discriminate.
  - split; reflexivity.
Qed.

Lemma isCurrencyChar_cases (c : char) :
  isCurrencyChar c = true -> isDigit c = true \/ c = 46%N \/ c = 44%N.
Proof.
  unfold isCurrencyChar. rewrite !orb_true_iff, !N.eqb_eq. tauto.
Qed.

Lemma isCurrencyChar_not_space (c : char) :
  isCurrencyChar c = true -> isWhiteSpace c = false.
Proof.
  intros H. apply isCurrencyChar_cases in H.
  destruct H as [H|[->| ->]]; [now apply isDigit_not_space | reflexivity ..].
Qed.

Lemma replaceFirstComma_currency (w : jsstring) :
  Forall (fun c => isCurrencyChar c = true) w ->
  Forall (fun c => isCurrencyChar c = true) (replaceFirstComma w).
Proof.
  induction 1 as [|c r Hc Hr IH]; cbn [replaceFirstComma]; [constructor|].
  destruct (c =? 44)%N; constructor; auto.
Qed.

Lemma stripNonCurrency_currency (v : jsstring) :
  Forall (fun c => isCurrencyChar c = true) (stripNonCurrency v).
Proof.
  apply Forall_forall. intros c Hc. apply filter_In in Hc. tauto.
Qed.

(** On a string of digits, dots and commas a numeral prefix exists exactly
    when the string starts with one, and its value is not negative. *)
Lemma scanDecimalLiteral_currency (w : jsstring) :
  Forall (fun c => isCurrencyChar c = true) w ->
  match scanDecimalLiteral w with
  | Some (x, _) => startsWithNumeral w = true /\ hasSign false x
  | None => startsWithNumeral w = false
  end.
Proof.
  intros Hw.
  destruct (scanDecimalLiteral w) as [[x t]|] eqn:E.
  - split.
    2:{ apply scanDecimalLiteral_sign in E.
        destruct w as [|c r]; [exact E|].
        apply Forall_inv, isCurrencyChar_cases in Hw.
        unfold scanSign in E.
        assert ((c =? 45)%N = false /\ (c =? 43)%N = false) as [H1 H2].
        { rewrite isDigit_range in Hw. rewrite !N.eqb_neq. lia. }
        rewrite H1, H2 in E. exact E. }
    destruct w as [|c r]; [discriminate E|].
    apply Forall_inv, isCurrencyChar_cases in Hw.
    assert ((c =? 45)%N = false /\ (c =? 43)%N = false /\ (73 =? c)%N = false)
      as (H1 & H2 & H3).
    { rewrite isDigit_range in Hw. rewrite !N.eqb_neq. lia. }
    unfold scanDecimalLiteral, scanSign in E. rewrite H1, H2 in E.
    change (str "Infinity") with [73; 110; 102; 105; 110; 105; 116; 121]%N in E.
    cbn [startsWith] in E. rewrite H3 in E. cbn [andb span] in E.
    cbn [startsWithNumeral].
    destruct (isDigit c) eqn:Hd; [reflexivity|]. cbn [orb].
    unfold scanFraction in E.
    destruct (c =? 46)%N; [|discriminate E]. cbn [andb].
    destruct r as [|c2 r2]; [discriminate E|].
    cbn [span] in E. destruct (isDigit c2); [reflexivity|discriminate E].
  - destruct w as [|c r]; [reflexivity|].
    apply Forall_inv, isCurrencyChar_cases in Hw.
    assert ((c =? 45)%N = false /\ (c =? 43)%N = false /\ (73 =? c)%N = false)
      as (H1 & H2 & H3).
    { rewrite isDigit_range in Hw. rewrite !N.eqb_neq. lia. }
    unfold scanDecimalLiteral, scanSign in E. rewrite H1, H2 in E.
    change (str "Infinity") with [73; 110; 102; 105; 110; 105; 116; 121]%N in E.
    cbn [startsWith] in E. rewrite H3 in E. cbn [andb span] in E.
    cbn [startsWithNumeral].
    destruct (isDigit c) eqn:Hd.
    + exfalso. destruct (span isDigit r) as [ip t2].
      destruct (scanFraction (c :: ip) t2) as [fp t3].
      cbn [app] in E. destruct (scanExponent t3). discriminate E.
    + cbn [orb]. unfold scanFraction in E.
      destruct (c =? 46)%N; [|reflexivity]. cbn [andb].
      destruct r as [|c2 r2]; [reflexivity|].
      cbn [span] in E. destruct (isDigit c2); [|reflexivity].
      exfalso. destruct (span isDigit r2) as [fp t3].
      cbn [app] in E. destruct (scanExponent t3). discriminate E.
Qed.

Lemma dropWhile_none {A} (p : A -> bool) (l : list A) :
  Forall (fun a => p a = false) l -> dropWhile p l = l.
Proof.
  destruct 1 as [|a r Ha _]; cbn [dropWhile]; [reflexivity|]. now rewrite Ha.
Qed.

(** The code's two [replace] calls compute the amount text of the
    specification. *)
Lemma isCurrencyChar_amountUnits (c : char) :
  existsb (N.eqb c) amountUnits = isCurrencyChar c.
Proof.
  apply eq_true_iff_eq.
  change amountUnits with
    [48; 49; 50; 51; 52; 53; 54; 55; 56; 57; 46; 44]%N.
  cbn [existsb]. unfold isCurrencyChar.
  rewrite !orb_true_iff, !N.eqb_eq, isDigit_range. lia.
Qed.

Lemma stripNonCurrency_keepAmountUnits (v : jsstring) :
  stripNonCurrency v = keepAmountUnits v.
Proof.
  unfold stripNonCurrency, keepAmountUnits. apply filter_ext.
  intros c. symmetry. apply isCurrencyChar_amountUnits.
Qed.

Lemma replaceFirstComma_commaToDot (s : jsstring) :
  replaceFirstComma s = commaToDot s.
Proof.
  unfold commaToDot. induction s as [|c r IH]; [reflexivity|].
  cbn [replaceFirstComma span].
  destruct (c =? 44)%N; cbn [negb]; [reflexivity|].
  rewrite IH.
  destruct (span (fun x => negb (x =? 44)%N) r) as [a t].
  destruct t; reflexivity.
Qed.

(** Where the comma step shows: a leading comma counts as a leading dot. *)
Lemma startsWithNumeral_replaceFirstComma (k : jsstring) :
  startsWithNumeral (replaceFirstComma k) = startsWithAmount k.
Proof.
  destruct k as [|c r]; [reflexivity|].
  cbn [replaceFirstComma startsWithAmount].
  destruct (c =? 44)%N eqn:E44.
  - apply N.eqb_eq in E44. subst c. reflexivity.
  - cbn [startsWithNumeral]. rewrite orb_false_r.
    destruct (isDigit c); [reflexivity|]. cbn [orb].
    destruct (c =? 46)%N; [|reflexivity]. cbn [andb].
    destruct r as [|c2 r2]; [reflexivity|]. cbn [replaceFirstComma].
    destruct (c2 =? 44)%N eqn:E2; [|reflexivity].
    apply N.eqb_eq in E2. subst c2. reflexivity.
Qed.

(** C7. [validateCurrency v] holds exactly when the amount text of [v]
    (every unit other than digits, dot and comma deleted, then the first
    comma turned into a dot) parses as a Number that is not negative.  That
    is the case exactly when the amount text starts with a digit or with a
    dot followed by a digit; in terms of the kept units before the comma
    step, exactly when they start with a digit, or with a dot or a comma
    followed by a digit.  A boolean is produced for every input. *)
Theorem validateCurrency_spec (v : jsstring) :
  let w := commaToDot (keepAmountUnits v) in
  (validateCurrency v = true
   <-> isNaN (parseFloat w) = false /\ ge (parseFloat w) (ofZ 0) = true)
  /\ validateCurrency v = startsWithNumeral w
  /\ validateCurrency v = startsWithAmount (keepAmountUnits v).
Proof.
  cbv zeta.
  rewrite <- stripNonCurrency_keepAmountUnits, <- replaceFirstComma_commaToDot.
  set (w := replaceFirstComma (stripNonCurrency v)).
  assert (Hs : validateCurrency v = startsWithNumeral w).
  { unfold validateCurrency. fold w.
    assert (Hw : Forall (fun c => isCurrencyChar c = true) w)
      by apply replaceFirstComma_currency, stripNonCurrency_currency.
    pose proof (scanDecimalLiteral_currency Hw) as H.
    unfold parseFloat. rewrite dropWhile_none.
    2:{ eapply Forall_impl; [|exact Hw]. apply isCurrencyChar_not_space. }
    destruct (scanDecimalLiteral w) as [[x t]|].
    + destruct H as [-> Hs].
      rewrite (hasSign_not_nan _ _ Hs), (hasSign_nonneg _ Hs). reflexivity.
    + rewrite H. reflexivity. }
  split; [|split].
  - unfold validateCurrency. fold w.
    rewrite andb_true_iff, negb_true_iff. tauto.
  - exact Hs.
  - rewrite Hs. apply startsWithNumeral_replaceFirstComma.
Qed.

Lemma validateCurrency_spec_witness :
  isNaN (parseFloat (str ".5")) = false
  /\ ge (parseFloat (str ".5")) (ofZ 0) = true.
Proof.
  apply (proj1 (proj1 (validateCurrency_spec (str "R$ ,5")))).
  vm_compute. reflexivity.
Defined.

(** ** The numeric field validator *)

(** C5. With [m] the minimum (0 when absent) and [x] the parsed value:
    an unparsable value (one with no numeral prefix after its leading white
    space) is invalid with the "valid number" message; otherwise a value
    below [m] is invalid with the message citing [m]; otherwise a value above
    a supplied maximum is invalid with the message citing it; otherwise the
    value is valid with an empty message.  So ["5"] with minimum 10 is
    invalid with a message containing ["10"], ["abc"] is invalid and ["5"]
    with the default bounds is valid. *)
Theorem validateNumber_spec :
  (forall (v : jsstring) (min max : option number),
      let m := match min with Some m => m | None => ofZ 0 end in
      let x := parseFloat v in
      (isNaN x = true
       <-> scanDecimalLiteral (dropWhile isWhiteSpace v) = None)
      /\ (isNaN x = true ->
         validateNumber v min max
         = mkResult false (str "Valor deve ser um número válido"))
      /\ (isNaN x = false -> lt x m = true ->
            validateNumber v min max
            = mkResult false (str "Valor mínimo é " ++ numberToString m))
      /\ (forall M, isNaN x = false -> lt x m = false ->
            max = Some M -> gt x M = true ->
            validateNumber v min max
            = mkResult false (str "Valor máximo é " ++ numberToString M))
      /\ (isNaN x = false -> lt x m = false ->
            (forall M, max = Some M -> gt x M = false) ->
            validateNumber v min max = mkResult true []))
  /\ (isValid (validateNumber (str "5") (Some (ofZ 10)) None) = false
      /\ contains (str "10")
           (message (validateNumber (str "5") (Some (ofZ 10)) None)))
  /\ isValid (validateNumber (str "abc") None None) = false
  /\ validateNumber (str "5") None None = mkResult true [].
Proof.
  split; [|split; [split|split]].
  - intros v min max m x. split; [apply parseFloat_nan|].
    unfold validateNumber. fold m. fold x.
    split; [|split; [|split]].
    + intros ->. reflexivity.
    + intros -> ->. reflexivity.
    + intros M -> -> -> ->. reflexivity.
    + intros -> -> H. destruct max as [M|]; [|reflexivity].
      rewrite (H M eq_refl). reflexivity.
  - reflexivity.
  - exists (str "Valor mínimo é "), []. vm_compute. reflexivity.
  - reflexivity.
  - vm_compute. reflexivity.
Qed.

Lemma validateNumber_spec_witness :
  validateNumber (str "x") None None
  = mkResult false (str "Valor deve ser um número válido")
  /\ validateNumber (str "-3") None None
     = mkResult false (str "Valor mínimo é " ++ numberToString (ofZ 0))
  /\ validateNumber (str "7.5") None (Some (ofZ 2))
     = mkResult false (str "Valor máximo é " ++ numberToString (ofZ 2))
  /\ validateNumber (str "1.5") (Some (ofZ 1)) (Some (ofZ 2)) = mkResult true [].
Proof.
  split; [|split; [|split]].
  - apply (proj1 (proj2 (proj1 validateNumber_spec (str "x") None None))).
    reflexivity.
  - apply (proj1 (proj2 (proj2
             (proj1 validateNumber_spec (str "-3") None None))));
      reflexivity.
  - apply (proj1 (proj2 (proj2 (proj2
             (proj1 validateNumber_spec (str "7.5") None (Some (ofZ 2))))))
             (ofZ 2));
      reflexivity.
  - apply (proj2 (proj2 (proj2 (proj2
             (proj1 validateNumber_spec (str "1.5")
                (Some (ofZ 1)) (Some (ofZ 2)))))));
      try reflexivity.
    intros M H. injection H as <-. reflexivity.
Defined.

(** ** Messages and validity *)

(** C8. For [validateRequired] and [validateNumber] the message is empty
    exactly when the result is valid.  For [validateDocument] an invalid
    result carries a non-empty message, and a valid one carries the
    confirmation "CPF válido" or "CNPJ válido". *)
Theorem message_empty_iff_valid :
  (forall value fieldName : jsstring,
      isValid (validateRequired value fieldName) = true
      <-> message (validateRequired value fieldName) = [])
  /\ (forall (value : jsstring) (min max : option number),
         isValid (validateNumber value min max) = true
         <-> message (validateNumber value min max) = [])
  /\ (forall document : jsstring,
         (Document.isValid (validateDocument document) = false ->
            Document.message (validateDocument document) <> [])
         /\ (Document.isValid (validateDocument document) = true ->
               Document.message (validateDocument document) = str "CPF válido"
               \/ Document.message (validateDocument document)
                  = str "CNPJ válido")).
Proof.
  split; [|split].
  - intros value fieldName. unfold validateRequired. cbn [isValid message].
    destruct (0 <? length (trim value))%nat; split; try reflexivity.
    + discriminate.
    + intros H. apply app_eq_nil in H. destruct H as [_ H]. discriminate H.
  - intros value min max. unfold validateNumber.
    destruct (isNaN (parseFloat value)); cbn [isValid message].
    { split; discriminate. }
    destruct (lt (parseFloat value) _); cbn [isValid message].
    { split; [discriminate|]. intros H. apply app_eq_nil in H.
      destruct H as [H _]. discriminate H. }
    destruct max as [M|]; [|split; reflexivity].
    destruct (gt (parseFloat value) M); cbn [isValid message];
      [|split; reflexivity].
    split; [discriminate|]. intros H. apply app_eq_nil in H.
    destruct H as [H _]. discriminate H.
  - intros document. unfold validateDocument.
    destruct (length (stripNonDigits document) =? 11)%nat.
    { cbn [Document.isValid Document.message].
      destruct (validateCPF document); split; try discriminate; auto. }
    destruct (length (stripNonDigits document) =? 14)%nat;
      cbn [Document.isValid Document.message].
    { destruct (validateCNPJ document); split; try discriminate; auto. }
    split; discriminate.
Qed.

Lemma message_empty_iff_valid_witness :
  message (validateRequired (str "x") (str "Name")) = []
  /\ message (validateNumber (str "5") None None) = []
  /\ Document.message (validateDocument (str "111.111.111-11")) <> []
  /\ (Document.message (validateDocument (str "529.982.247-25"))
      = str "CPF válido"
      \/ Document.message (validateDocument (str "529.982.247-25"))
         = str "CNPJ válido").
Proof.
  split; [|split; [|split]].
  - apply (proj1 (proj1 message_empty_iff_valid (str "x") (str "Name"))).
    reflexivity.
  - apply (proj1 (proj1 (proj2 message_empty_iff_valid) (str "5") None None)).
    reflexivity.
  - apply (proj1 (proj2 (proj2 message_empty_iff_valid) (str "111.111.111-11"))).
    reflexivity.
  - apply (proj2 (proj2 (proj2 message_empty_iff_valid) (str "529.982.247-25"))).
    reflexivity.
Defined.

(** ** Trailing text after a numeral *)

Section Trailing.

Variable t : jsstring.
Hypothesis Ht : startsNonNumeric t = true.

Lemma trailing_head (c : char) (t' : jsstring) :
  t = c :: t' ->
  isDigit c = false /\ (c =? 46)%N = false /\ (c =? 101)%N = false
  /\ (c =? 69)%N = false /\ (c =? 43)%N = false /\ (c =? 45)%N = false.
Proof using Ht.
  intros E. pose proof Ht as H. rewrite E in H. cbn [startsNonNumeric] in H.
  apply negb_true_iff in H. unfold isNumeralChar in H.
  repeat (apply orb_false_iff in H; destruct H as [H ?]).
  repeat split; assumption.
Qed.

Lemma span_app_trailing (a : jsstring) :
  span isDigit (a ++ t) = (fst (span isDigit a), snd (span isDigit a) ++ t).
Proof using Ht.
  induction a as [|x a IH]; cbn [app span].
  - pose proof trailing_head as Hh.
    destruct t as [|c t']; [reflexivity|].
    destruct (Hh _ _ eq_refl) as (Hc & _). cbn [span]. rewrite Hc. reflexivity.
  - destruct (isDigit x); [|reflexivity].
    rewrite IH. destruct (span isDigit a). reflexivity.
Qed.

Lemma scanSign_app_trailing (u : jsstring) :
  scanSign (u ++ t) = (fst (scanSign u), snd (scanSign u) ++ t).
Proof using Ht.
  destruct u as [|c r]; cbn [app].
  - pose proof trailing_head as Hh.
    destruct t as [|c t']; [reflexivity|].
    destruct (Hh _ _ eq_refl) as (_ & _ & _ & _ & H43 & H45).
    cbn [scanSign]. rewrite H43, H45. reflexivity.
  - cbn [scanSign]. destruct (c =? 45)%N; [reflexivity|].
    destruct (c =? 43)%N; reflexivity.
Qed.

Lemma scanFraction_app_trailing (ip u : jsstring) :
  scanFraction ip (u ++ t)
  = (fst (scanFraction ip u), snd (scanFraction ip u) ++ t).
Proof using Ht.
  destruct u as [|c r]; cbn [app].
  - pose proof trailing_head as Hh.
    destruct t as [|c t']; [reflexivity|].
    destruct (Hh _ _ eq_refl) as (_ & H46 & _).
    cbn [scanFraction]. rewrite H46. reflexivity.
  - cbn [scanFraction]. destruct (c =? 46)%N; [|reflexivity].
    rewrite span_app_trailing. destruct (span isDigit r) as [fp r'].
    cbn [fst snd]. destruct ip, fp; reflexivity.
Qed.

Lemma scanExponent_app_trailing (u : jsstring) :
  scanExponent (u ++ t) = (fst (scanExponent u), snd (scanExponent u) ++ t).
Proof using Ht.
  destruct u as [|c r]; cbn [app].
  - pose proof trailing_head as Hh.
    destruct t as [|c t']; [reflexivity|].
    destruct (Hh _ _ eq_refl) as (_ & _ & H101 & H69 & _).
    cbn [scanExponent]. rewrite H101, H69. reflexivity.
  - cbn [scanExponent]. destruct ((c =? 101) || (c =? 69))%N; [|reflexivity].
    rewrite scanSign_app_trailing. destruct (scanSign r) as [neg r1].
    cbn [fst snd]. rewrite span_app_trailing.
    destruct (span isDigit r1) as [ds r2]. cbn [fst snd].
    destruct ds; reflexivity.
Qed.

Lemma startsWith_app (p a : jsstring) :
  startsWith p a = true ->
  startsWith p (a ++ t) = true /\ (length p <= length a)%nat.
Proof.
  revert a. induction p as [|x p IH]; intros a H; cbn [startsWith length].
  - split; [reflexivity | lia].
  - destruct a as [|y a]; [discriminate H|]. cbn [startsWith app length] in *.
    apply andb_true_iff in H. destruct H as [-> H].
    destruct (IH _ H) as [-> Hl]. split; [reflexivity | lia].
Qed.

(** A numeral prefix is not disturbed by what follows it, as long as that
    does not begin with a numeral unit. *)
Lemma scanDecimalLiteral_app_trailing (u r : jsstring) (x : number) :
  scanDecimalLiteral u = Some (x, r) ->
  scanDecimalLiteral (u ++ t) = Some (x, r ++ t).
Proof using Ht.
  unfold scanDecimalLiteral. rewrite scanSign_app_trailing.
  destruct (scanSign u) as [neg t1]. cbn [fst snd].
  destruct (startsWith (str "Infinity") t1) eqn:HI.
  - destruct (startsWith_app _ _ HI) as [-> Hl].
    intros E. injection E as <- <-.
    rewrite skipn_app.
    replace (8 - length t1)%nat with 0%nat by (cbn in Hl; lia).
    reflexivity.
  - intros E.
    assert (HI' : startsWith (str "Infinity") (t1 ++ t) = false).
    { destruct t1 as [|c t1']; [discriminate E|].
      change (str "Infinity") with [73; 110; 102; 105; 110; 105; 116; 121]%N
        in *.
      cbn [app startsWith] in *.
      destruct (73 =? c)%N eqn:Hc; [|reflexivity].
      apply N.eqb_eq in Hc. subst c. discriminate E. }
    rewrite HI', span_app_trailing.
    destruct (span isDigit t1) as [ip t2]. cbn [fst snd].
    rewrite scanFraction_app_trailing.
    destruct (scanFraction ip t2) as [fp t3]. cbn [fst snd].
    destruct (ip ++ fp) as [|d ds]; [discriminate E|].
    rewrite scanExponent_app_trailing.
    destruct (scanExponent t3) as [ex t4]. cbn [fst snd].
    injection E as <- <-. reflexivity.
Qed.

Lemma dropWhile_app_trailing (s : jsstring) :
  dropWhile isWhiteSpace s <> [] ->
  dropWhile isWhiteSpace (s ++ t) = dropWhile isWhiteSpace s ++ t.
Proof.
  induction s as [|c s IH]; cbn [app dropWhile]; intros H.
  - contradiction.
  - destruct (isWhiteSpace c); [now apply IH | reflexivity].
Qed.

Lemma parseFloat_app_trailing (s : jsstring) :
  isNaN (parseFloat s) = false -> parseFloat (s ++ t) = parseFloat s.
Proof using Ht.
  intros H. unfold parseFloat in *.
  destruct (scanDecimalLiteral (dropWhile isWhiteSpace s)) as [[x r]|] eqn:E;
    [|discriminate H].
  rewrite dropWhile_app_trailing by (intros E0; rewrite E0 in E; discriminate E).
  rewrite (scanDecimalLiteral_app_trailing _ E). reflexivity.
Qed.

End Trailing.

Lemma validateNumber_valid_parses (s : jsstring) (min max : option number) :
  isValid (validateNumber s min max) = true -> isNaN (parseFloat s) = false.
Proof.
  unfold validateNumber. destruct (isNaN (parseFloat s)); [discriminate|].
  reflexivity.
Qed.

(** C10. ["5abc"] is not a numeral as a whole (the numeral prefix ["5"]
    leaves ["abc"] unread) and yet is valid with an empty message under the
    default bounds.  In general, text appended to a value that parses leaves
    the result as it was, whenever that text does not begin with a numeral
    unit (a digit, a dot, [e], [E] or a sign); in particular a valid field
    stays valid. *)
Theorem validateNumber_trailing_text :
  (validateNumber (str "5abc") None None = mkResult true []
   /\ scanDecimalLiteral (str "5abc") = Some (ofZ 5, str "abc"))
  /\ (forall (s t : jsstring) (min max : option number),
         startsNonNumeric t = true ->
         isNaN (parseFloat s) = false ->
         validateNumber (s ++ t) min max = validateNumber s min max)
  /\ (forall (s t : jsstring) (min max : option number),
         startsNonNumeric t = true ->
         isValid (validateNumber s min max) = true ->
         isValid (validateNumber (s ++ t) min max) = true
         /\ message (validateNumber (s ++ t) min max) = []).
Proof.
  assert (Hsame : forall (s t : jsstring) (min max : option number),
             startsNonNumeric t = true ->
             isNaN (parseFloat s) = false ->
             validateNumber (s ++ t) min max = validateNumber s min max).
  { intros s t min max Ht Hs. unfold validateNumber.
    rewrite parseFloat_app_trailing by assumption. reflexivity. }
  split; [split; vm_compute; reflexivity|].
  split; [exact Hsame|].
  intros s t min max Ht Hv.
  rewrite (Hsame s t min max Ht (validateNumber_valid_parses _ _ _ Hv)).
  split; [exact Hv|].
  revert Hv. unfold validateNumber.
  destruct (isNaN (parseFloat s)); [discriminate|].
  destruct (lt (parseFloat s) _); [discriminate|].
  destruct max as [M|]; [|reflexivity].
  destruct (gt (parseFloat s) M); [discriminate | reflexivity].
Qed.

Lemma validateNumber_trailing_text_witness :
  validateNumber (str "12" ++ str "px") None None
  = validateNumber (str "12") None None
  /\ (isValid (validateNumber (str "2.5" ++ str " kg") None None) = true
      /\ message (validateNumber (str "2.5" ++ str " kg") None None) = []).
Proof.
  split.
  - apply (proj1 (proj2 validateNumber_trailing_text)); reflexivity.
  - apply (proj2 (proj2 validateNumber_trailing_text)); reflexivity.
Defined.

(* ================================================================== *)
(** * Further properties of the module and of its caller *)
(* ================================================================== *)

(** ** Group replacement on cleaned strings *)

Lemma replaceGroups_short (ns : list nat) (template : list repl)
    (s : jsstring) :
  (length s < list_sum ns)%nat -> replaceGroups ns template s = s.
Proof.
  induction s as [|c r IH]; cbn [replaceGroups length]; intros H;
    [reflexivity|].
  unfold digitRun. cbn [length].
  replace (list_sum ns <=? S (length r))%nat with false
    by (symmetry; apply Nat.leb_gt; lia).
  cbn [andb]. rewrite IH by lia. reflexivity.
Qed.

Lemma digitRun_digits (n : nat) (s : jsstring) :
  Forall (fun x => isDigit x = true) s ->
  digitRun n s = (n <=? length s)%nat.
Proof.
  intros H. unfold digitRun.
  replace (forallb isDigit (firstn n s)) with true; [apply andb_true_r|].
  symmetry. apply forallb_forall. apply Forall_forall.
  now apply Forall_firstn.
Qed.

Lemma replaceGroups_digits (ns : list nat) (template : list repl)
    (s : jsstring) :
  Forall (fun x => isDigit x = true) s -> (0 < list_sum ns)%nat ->
  replaceGroups ns template s
  = if (list_sum ns <=? length s)%nat
    then expand template (cutGroups ns s) ++ skipn (list_sum ns) s
    else s.
Proof.
  intros Hd Hpos. destruct s as [|c r].
  - cbn [replaceGroups length].
    replace (list_sum ns <=? 0)%nat with false
      by (symmetry; apply Nat.leb_gt; lia).
    reflexivity.
  - cbn [replaceGroups]. rewrite digitRun_digits by exact Hd.
    destruct (list_sum ns <=? length (c :: r))%nat eqn:E; [reflexivity|].
    apply Nat.leb_gt in E. cbn [length] in E.
    rewrite replaceGroups_short by lia. reflexivity.
Qed.

Lemma formatCPF_unfold (s : jsstring) :
  let c := stripNonDigits s in
  formatCPF s
  = if (11 <=? length c)%nat then
      firstn 3 c ++ str "." ++ firstn 3 (skipn 3 c) ++ str "."
      ++ firstn 3 (skipn 6 c) ++ str "-" ++ firstn 2 (skipn 9 c)
      ++ skipn 11 c
    else c.
Proof.
  intros c. unfold formatCPF. fold c.
  rewrite replaceGroups_digits
    by (try apply stripNonDigits_digits; cbn; lia).
  change (list_sum [3; 3; 3; 2]%nat) with 11%nat.
  destruct (11 <=? length c)%nat; [|reflexivity].
  cbn [cutGroups expand cpfTemplate flat_map nth Nat.sub].
  rewrite !skipn_skipn. cbn [Nat.add].
  rewrite <- !app_assoc, app_nil_l. reflexivity.
Qed.

Lemma formatCNPJ_unfold (s : jsstring) :
  let c := stripNonDigits s in
  formatCNPJ s
  = if (14 <=? length c)%nat then
      firstn 2 c ++ str "." ++ firstn 3 (skipn 2 c) ++ str "."
      ++ firstn 3 (skipn 5 c) ++ str "/" ++ firstn 4 (skipn 8 c)
      ++ str "-" ++ firstn 2 (skipn 12 c) ++ skipn 14 c
    else c.
Proof.
  intros c. unfold formatCNPJ. fold c.
  rewrite replaceGroups_digits
    by (try apply stripNonDigits_digits; cbn; lia).
  change (list_sum [2; 3; 3; 4; 2]%nat) with 14%nat.
  destruct (14 <=? length c)%nat; [|reflexivity].
  cbn [cutGroups expand cnpjTemplate flat_map nth Nat.sub].
  rewrite !skipn_skipn. cbn [Nat.add].
  rewrite <- !app_assoc, app_nil_l. reflexivity.
Qed.

Lemma Forall_skipn {A} (P : A -> Prop) (n : nat) (l : list A) :
  Forall P l -> Forall P (skipn n l).
Proof.
  intros H. revert n. induction H as [|x l Hx Hl IH]; intros [|n]; simpl;
    auto.
Qed.

Lemma firstn_skipn_join {A} (k n : nat) (l : list A) :
  firstn n (skipn k l) ++ skipn (k + n) l = skipn k l.
Proof.
  rewrite Nat.add_comm, <- skipn_skipn. apply firstn_skipn.
Qed.

(** Cleaning a text made of digit pieces and punctuation keeps the pieces. *)
Ltac strip_pieces Hd :=
  rewrite ?stripNonDigits_app;
  repeat match goal with
  | |- context [stripNonDigits (firstn ?n ?l)] =>
      rewrite (@stripNonDigits_fixed (firstn n l))
        by (apply Forall_firstn; try apply Forall_skipn; exact Hd)
  | |- context [stripNonDigits (skipn ?n ?l)] =>
      rewrite (@stripNonDigits_fixed (skipn n l))
        by (apply Forall_skipn; exact Hd)
  end.

Lemma formatCPF_digits (s : jsstring) :
  stripNonDigits (formatCPF s) = stripNonDigits s.
Proof.
  rewrite formatCPF_unfold. cbv zeta.
  pose proof (stripNonDigits_digits s) as Hd.
  set (c := stripNonDigits s) in *.
  destruct (11 <=? length c)%nat; [|now apply stripNonDigits_fixed].
  strip_pieces Hd.
  change (stripNonDigits (str ".")) with (@nil char).
  change (stripNonDigits (str "-")) with (@nil char).
  cbn [app].
  rewrite (firstn_skipn_join 9 2), (firstn_skipn_join 6 3),
    (firstn_skipn_join 3 3).
  apply firstn_skipn.
Qed.

Lemma formatCNPJ_digits (s : jsstring) :
  stripNonDigits (formatCNPJ s) = stripNonDigits s.
Proof.
  rewrite formatCNPJ_unfold. cbv zeta.
  pose proof (stripNonDigits_digits s) as Hd.
  set (c := stripNonDigits s) in *.
  destruct (14 <=? length c)%nat; [|now apply stripNonDigits_fixed].
  strip_pieces Hd.
  change (stripNonDigits (str ".")) with (@nil char).
  change (stripNonDigits (str "/")) with (@nil char).
  change (stripNonDigits (str "-")) with (@nil char).
  cbn [app].
  rewrite (firstn_skipn_join 12 2), (firstn_skipn_join 8 4),
    (firstn_skipn_join 5 3), (firstn_skipn_join 2 3).
  apply firstn_skipn.
Qed.

Lemma formatDocument_digits (s : jsstring) :
  stripNonDigits (formatDocument s) = stripNonDigits s.
Proof.
  unfold formatDocument.
  destruct (length (stripNonDigits s) <=? 11)%nat.
  - rewrite formatCPF_digits. apply stripNonDigits_idem.
  - rewrite formatCNPJ_digits. apply stripNonDigits_idem.
Qed.

Lemma formatPhone_unfold (s : jsstring) :
  let c := stripNonDigits s in
  formatPhone s
  = if (length c =? 10)%nat then
      str "(" ++ firstn 2 c ++ str ") " ++ firstn 4 (skipn 2 c) ++ str "-"
      ++ skipn 6 c
    else if (length c =? 11)%nat then
      str "(" ++ firstn 2 c ++ str ") " ++ firstn 5 (skipn 2 c) ++ str "-"
      ++ skipn 7 c
    else s.
Proof.
  intros c. unfold formatPhone. fold c.
  pose proof (stripNonDigits_digits s) as Hd. fold c in Hd.
  destruct (length c =? 10)%nat eqn:E10.
  - apply Nat.eqb_eq in E10.
    rewrite replaceGroups3_exact by (try assumption; lia). reflexivity.
  - destruct (length c =? 11)%nat eqn:E11; [|reflexivity].
    apply Nat.eqb_eq in E11.
    rewrite replaceGroups3_exact by (try assumption; lia). reflexivity.
Qed.

Lemma formatPhone_digits (s : jsstring) :
  stripNonDigits (formatPhone s) = stripNonDigits s.
Proof.
  rewrite formatPhone_unfold. cbv zeta.
  pose proof (stripNonDigits_digits s) as Hd.
  set (c := stripNonDigits s) in *.
  destruct (length c =? 10)%nat.
  - strip_pieces Hd.
    change (stripNonDigits (str "(")) with (@nil char).
    change (stripNonDigits (str ") ")) with (@nil char).
    change (stripNonDigits (str "-")) with (@nil char).
    cbn [app]. rewrite (firstn_skipn_join 2 4). apply firstn_skipn.
  - destruct (length c =? 11)%nat; [|reflexivity].
    strip_pieces Hd.
    change (stripNonDigits (str "(")) with (@nil char).
    change (stripNonDigits (str ") ")) with (@nil char).
    change (stripNonDigits (str "-")) with (@nil char).
    cbn [app]. rewrite (firstn_skipn_join 2 5). apply firstn_skipn.
Qed.

(** X1. The four formatters only insert or drop punctuation: the digits of
    the result are the digits of the input, in the same order. *)
Theorem format_preserves_digits (s : jsstring) :
  stripNonDigits (formatCPF s) = stripNonDigits s
  /\ stripNonDigits (formatCNPJ s) = stripNonDigits s
  /\ stripNonDigits (formatDocument s) = stripNonDigits s
  /\ stripNonDigits (formatPhone s) = stripNonDigits s.
Proof.
  repeat split.
  - apply formatCPF_digits.
  - apply formatCNPJ_digits.
  - apply formatDocument_digits.
  - apply formatPhone_digits.
Qed.

(** ** What the identifier formatters render *)

(** X2. [formatCPF] renders the first eleven digits of its input as
    [DDD.DDD.DDD-DD] and appends any further digits unchanged; with fewer
    than eleven digits it returns the bare digits, punctuation dropped. *)
Theorem formatCPF_shape (s : jsstring) :
  let c := stripNonDigits s in
  ((length c < 11)%nat -> formatCPF s = c)
  /\ (length c = 11%nat ->
        formatCPF s
        = firstn 3 c ++ str "." ++ firstn 3 (skipn 3 c) ++ str "."
          ++ firstn 3 (skipn 6 c) ++ str "-" ++ skipn 9 c
        /\ length (formatCPF s) = 14%nat)
  /\ ((11 < length c)%nat ->
        formatCPF s
        = firstn 3 c ++ str "." ++ firstn 3 (skipn 3 c) ++ str "."
          ++ firstn 3 (skipn 6 c) ++ str "-" ++ firstn 2 (skipn 9 c)
          ++ skipn 11 c).
Proof.
  cbv zeta. pose proof (stripNonDigits_digits s) as Hd.
  set (c := stripNonDigits s) in *. split; [|split].
  - intros H. rewrite formatCPF_unfold. fold c.
    replace (11 <=? length c)%nat with false
      by (symmetry; apply Nat.leb_gt; lia).
    reflexivity.
  - intros H.
    assert (E : formatCPF s
                = firstn 3 c ++ str "." ++ firstn 3 (skipn 3 c) ++ str "."
                  ++ firstn 3 (skipn 6 c) ++ str "-" ++ skipn 9 c).
    { rewrite formatCPF_unfold. fold c. rewrite H. cbn [Nat.leb].
      rewrite (skipn_all2 (n := 11)) by lia.
      rewrite (firstn_all2 (n := 2)) by (rewrite length_skipn; lia).
      now rewrite app_nil_r. }
    split; [exact E|]. rewrite E.
    rewrite !length_app, !length_firstn, !length_skipn, H. reflexivity.
  - intros H. rewrite formatCPF_unfold. fold c.
    replace (11 <=? length c)%nat with true
      by (symmetry; apply Nat.leb_le; lia).
    reflexivity.
Qed.

(** X3. [formatCNPJ] renders the first fourteen digits of its input as
    [DD.DDD.DDD/DDDD-DD] and appends any further digits unchanged; with
    fewer than fourteen digits it returns the bare digits. *)
Theorem formatCNPJ_shape (s : jsstring) :
  let c := stripNonDigits s in
  ((length c < 14)%nat -> formatCNPJ s = c)
  /\ (length c = 14%nat ->
        formatCNPJ s
        = firstn 2 c ++ str "." ++ firstn 3 (skipn 2 c) ++ str "."
          ++ firstn 3 (skipn 5 c) ++ str "/" ++ firstn 4 (skipn 8 c)
          ++ str "-" ++ skipn 12 c
        /\ length (formatCNPJ s) = 18%nat)
  /\ ((14 < length c)%nat ->
        formatCNPJ s
        = firstn 2 c ++ str "." ++ firstn 3 (skipn 2 c) ++ str "."
          ++ firstn 3 (skipn 5 c) ++ str "/" ++ firstn 4 (skipn 8 c)
          ++ str "-" ++ firstn 2 (skipn 12 c) ++ skipn 14 c).
Proof.
  cbv zeta. set (c := stripNonDigits s). split; [|split].
  - intros H. rewrite formatCNPJ_unfold. fold c.
    replace (14 <=? length c)%nat with false
      by (symmetry; apply Nat.leb_gt; lia).
    reflexivity.
  - intros H.
    assert (E : formatCNPJ s
                = firstn 2 c ++ str "." ++ firstn 3 (skipn 2 c) ++ str "."
                  ++ firstn 3 (skipn 5 c) ++ str "/" ++ firstn 4 (skipn 8 c)
                  ++ str "-" ++ skipn 12 c).
    { rewrite formatCNPJ_unfold. fold c. rewrite H. cbn [Nat.leb].
      rewrite (skipn_all2 (n := 14)) by lia.
      rewrite (firstn_all2 (n := 2) (skipn 12 c))
        by (rewrite length_skipn; lia).
      now rewrite app_nil_r. }
    split; [exact E|]. rewrite E.
    rewrite !length_app, !length_firstn, !length_skipn, H. reflexivity.
  - intros H. rewrite formatCNPJ_unfold. fold c.
    replace (14 <=? length c)%nat with true
      by (symmetry; apply Nat.leb_le; lia).
    reflexivity.
Qed.

Lemma formatCNPJ_shape_witness :
  formatCNPJ (str "1122233") = str "1122233"
  /\ (formatCNPJ (str "11222333000181")
      = firstn 2 (str "11222333000181") ++ str "."
        ++ firstn 3 (skipn 2 (str "11222333000181")) ++ str "."
        ++ firstn 3 (skipn 5 (str "11222333000181")) ++ str "/"
        ++ firstn 4 (skipn 8 (str "11222333000181")) ++ str "-"
        ++ skipn 12 (str "11222333000181")
      /\ length (formatCNPJ (str "11222333000181")) = 18%nat).
Proof.
  split.
  - apply (proj1 (formatCNPJ_shape (str "1122233"))). vm_compute. lia.
  - apply (proj1 (proj2 (formatCNPJ_shape (str "11222333000181")))).
    reflexivity.
Defined.

Lemma formatCPF_shape_witness :
  formatCPF (str "529.98") = str "52998"
  /\ (formatCPF (str "52998224725")
      = firstn 3 (str "52998224725") ++ str "."
        ++ firstn 3 (skipn 3 (str "52998224725")) ++ str "."
        ++ firstn 3 (skipn 6 (str "52998224725")) ++ str "-"
        ++ skipn 9 (str "52998224725")
      /\ length (formatCPF (str "52998224725")) = 14%nat).
Proof.
  split.
  - apply (proj1 (formatCPF_shape (str "529.98"))). vm_compute. lia.
  - apply (proj1 (proj2 (formatCPF_shape (str "52998224725")))).
    reflexivity.
Defined.

(** X4. [formatDocument] shows exactly eleven digits in the individual
    pattern and fourteen or more in the business pattern; with fewer than
    eleven digits, and with twelve or thirteen, it returns the bare digits. *)
Theorem formatDocument_routing (s : jsstring) :
  let c := stripNonDigits s in
  (length c = 11%nat -> formatDocument s = formatCPF s)
  /\ ((14 <= length c)%nat -> formatDocument s = formatCNPJ s)
  /\ ((length c < 11)%nat \/ (11 < length c < 14)%nat ->
        formatDocument s = c).
Proof.
  cbv zeta. unfold formatDocument. set (c := stripNonDigits s).
  assert (Hc : stripNonDigits c = c) by apply stripNonDigits_idem.
  split; [|split].
  - intros H. rewrite H. cbn [Nat.leb].
    unfold formatCPF. now rewrite Hc.
  - intros H.
    replace (length c <=? 11)%nat with false
      by (symmetry; apply Nat.leb_gt; lia).
    unfold formatCNPJ. now rewrite Hc.
  - intros [H|H].
    + replace (length c <=? 11)%nat with true
        by (symmetry; apply Nat.leb_le; lia).
      rewrite formatCPF_unfold. cbv zeta. rewrite Hc.
      replace (11 <=? length c)%nat with false
        by (symmetry; apply Nat.leb_gt; lia).
      reflexivity.
    + replace (length c <=? 11)%nat with false
        by (symmetry; apply Nat.leb_gt; lia).
      rewrite formatCNPJ_unfold. cbv zeta. rewrite Hc.
      replace (14 <=? length c)%nat with false
        by (symmetry; apply Nat.leb_gt; lia).
      reflexivity.
Qed.

Lemma formatDocument_routing_witness :
  formatDocument (str "529.982.247-25") = formatCPF (str "529.982.247-25")
  /\ formatDocument (str "11222333000181") = formatCNPJ (str "11222333000181")
  /\ formatDocument (str "529.982.247-251") = str "529982247251".
Proof.
  split; [|split].
  - apply (proj1 (formatDocument_routing (str "529.982.247-25"))).
    reflexivity.
  - apply (proj1 (proj2 (formatDocument_routing (str "11222333000181")))).
    vm_compute. lia.
  - apply (proj2 (proj2 (formatDocument_routing (str "529.982.247-251")))).
    right. vm_compute. lia.
Defined.

(** ** Formatting and validation compose *)

Lemma formatCPF_clean (s : jsstring) :
  formatCPF s = formatCPF (stripNonDigits s).
Proof.
  unfold formatCPF. now rewrite stripNonDigits_idem.
Qed.

Lemma formatCNPJ_clean (s : jsstring) :
  formatCNPJ s = formatCNPJ (stripNonDigits s).
Proof.
  unfold formatCNPJ. now rewrite stripNonDigits_idem.
Qed.

Lemma formatDocument_clean (s : jsstring) :
  formatDocument s = formatDocument (stripNonDigits s).
Proof.
  unfold formatDocument. now rewrite !stripNonDigits_idem.
Qed.

Lemma format_idempotent_parts (s : jsstring) :
  formatCPF (formatCPF s) = formatCPF s
  /\ formatCNPJ (formatCNPJ s) = formatCNPJ s
  /\ formatDocument (formatDocument s) = formatDocument s
  /\ formatPhone (formatPhone s) = formatPhone s.
Proof.
  repeat split.
  - rewrite (formatCPF_clean (formatCPF s)), formatCPF_digits.
    symmetry. apply formatCPF_clean.
  - rewrite (formatCNPJ_clean (formatCNPJ s)), formatCNPJ_digits.
    symmetry. apply formatCNPJ_clean.
  - rewrite (formatDocument_clean (formatDocument s)), formatDocument_digits.
    symmetry. apply formatDocument_clean.
  - rewrite (formatPhone_unfold (formatPhone s)). cbv zeta.
    rewrite formatPhone_digits.
    pose proof (formatPhone_unfold s) as E. cbv zeta in E.
    destruct (length (stripNonDigits s) =? 10)%nat; [now rewrite E|].
    destruct (length (stripNonDigits s) =? 11)%nat; [now rewrite E|].
    reflexivity.
Qed.

(** X5. Each formatter is idempotent: formatting a formatted value changes
    nothing. *)
Theorem format_idempotent (s : jsstring) :
  formatCPF (formatCPF s) = formatCPF s
  /\ formatCNPJ (formatCNPJ s) = formatCNPJ s
  /\ formatDocument (formatDocument s) = formatDocument s
  /\ formatPhone (formatPhone s) = formatPhone s.
Proof.
  exact (format_idempotent_parts s).
Qed.

(** X6. Validation does not depend on formatting: every validator of
    identifiers and phones gives on a formatted value the verdict it gives
    on the value before formatting. *)
Theorem validation_after_formatting (s : jsstring) :
  validateCPF (formatCPF s) = validateCPF s
  /\ validateCNPJ (formatCNPJ s) = validateCNPJ s
  /\ validateDocument (formatDocument s) = validateDocument s
  /\ validatePhone (formatPhone s) = validatePhone s.
Proof.
  repeat split.
  - rewrite (validateCPF_clean (formatCPF s)), formatCPF_digits.
    symmetry. apply validateCPF_clean.
  - rewrite (validateCNPJ_clean (formatCNPJ s)), formatCNPJ_digits.
    symmetry. apply validateCNPJ_clean.
  - rewrite (validateDocument_clean (formatDocument s)), formatDocument_digits.
    symmetry. apply validateDocument_clean.
  - unfold validatePhone. now rewrite formatPhone_digits.
Qed.

(** ** Phone validity and phone formatting *)

(** X7. A phone is valid exactly when it has ten or eleven digits, and
    [formatPhone] rewrites exactly the valid phones: an invalid one comes
    back as typed, a valid one as its two-digit area code in parentheses,
    then the digits up to the last four, a hyphen and the last four. *)
Theorem validatePhone_formatPhone (s : jsstring) :
  let c := stripNonDigits s in
  (validatePhone s = true <-> length c = 10%nat \/ length c = 11%nat)
  /\ (validatePhone s = false -> formatPhone s = s)
  /\ (validatePhone s = true ->
        formatPhone s
        = str "(" ++ firstn 2 c ++ str ") "
          ++ firstn (length c - 6) (skipn 2 c) ++ str "-"
          ++ skipn (length c - 4) c).
Proof.
  cbv zeta. set (c := stripNonDigits s).
  assert (Hv : validatePhone s = true <-> length c = 10%nat \/ length c = 11%nat).
  { unfold validatePhone. fold c.
    rewrite andb_true_iff, !Nat.leb_le. lia. }
  split; [exact Hv|]. split.
  - intros H. rewrite formatPhone_unfold. fold c.
    destruct (length c =? 10)%nat eqn:E10.
    { apply Nat.eqb_eq in E10. rewrite (proj2 Hv) in H by auto. discriminate. }
    destruct (length c =? 11)%nat eqn:E11; [|reflexivity].
    apply Nat.eqb_eq in E11. rewrite (proj2 Hv) in H by auto. discriminate.
  - intros H. apply Hv in H. rewrite formatPhone_unfold. fold c.
    destruct H as [H|H]; rewrite H; reflexivity.
Qed.

Lemma validatePhone_formatPhone_witness :
  formatPhone (str "555-1234") = str "555-1234"
  /\ formatPhone (str "11 98765 4321")
     = str "(" ++ firstn 2 (str "11987654321") ++ str ") "
       ++ firstn 5 (skipn 2 (str "11987654321")) ++ str "-"
       ++ skipn 7 (str "11987654321").
Proof.
  split.
  - apply (proj1 (proj2 (validatePhone_formatPhone (str "555-1234")))).
    reflexivity.
  - apply (proj2 (proj2 (validatePhone_formatPhone (str "11 98765 4321")))).
    reflexivity.
Defined.

(** ** Matching by derivatives *)

Lemma nullable_Matches (r : regex) : nullable r = true <-> Matches r [].
Proof.
  split.
  - induction r; cbn [nullable]; intros H; try discriminate.
    + constructor.
    + apply andb_true_iff in H. destruct H as [H1 H2].
      change (@nil char) with (@nil char ++ []). constructor; auto.
    + apply orb_true_iff in H. destruct H as [H|H];
        [apply MAltL | apply MAltR]; auto.
    + constructor.
  - intros H. remember (@nil char) as s eqn:Es.
    induction H; cbn [nullable]; try reflexivity; try discriminate.
    + apply app_eq_nil in Es. destruct Es as [-> ->].
      rewrite IHMatches1, IHMatches2; reflexivity.
    + rewrite IHMatches by assumption. reflexivity.
    + rewrite IHMatches by assumption. apply orb_true_r.
Qed.

Lemma deriv_sound (c : char) (r : regex) :
  forall s, Matches (deriv c r) s -> Matches r (c :: s).
Proof.
  induction r as [| |p|r1 IH1 r2 IH2|r1 IH1 r2 IH2|r1 IH1];
    cbn [deriv]; intros s H.
  - inversion H.
  - inversion H.
  - destruct (p c) eqn:Hp; inversion H; subst. now constructor.
  - assert (Hseq : forall t, Matches (Seq (deriv c r1) r2) t ->
                             Matches (Seq r1 r2) (c :: t)).
    { intros t Ht. inversion Ht; subst.
      change (c :: s1 ++ s2) with ((c :: s1) ++ s2). constructor; auto. }
    destruct (nullable r1) eqn:Hn; [|now apply Hseq].
    inversion H; subst; [now apply Hseq|].
    change (c :: s) with ([] ++ c :: s). constructor; auto.
    now apply nullable_Matches.
  - inversion H; subst; [apply MAltL | apply MAltR]; auto.
  - inversion H; subst.
    change (c :: s1 ++ s2) with ((c :: s1) ++ s2). constructor; auto.
Qed.

Lemma deriv_complete (c : char) (r : regex) (s : jsstring) :
  Matches r (c :: s) -> Matches (deriv c r) s.
Proof.
  intros H. remember (c :: s) as t eqn:Et. revert s Et.
  induction H as [|p x Hx|r1 r2 s1 s2 H1 IH1 H2 IH2|r1 r2 t H IH
                  |r1 r2 t H IH| |r1 s1 s2 H1 IH1 H2 IH2];
    intros s Et; cbn [deriv]; try discriminate.
  - injection Et as E1 E2. subst. rewrite Hx. constructor.
  - destruct s1 as [|x s1'].
    + cbn [app] in Et. subst s2.
      rewrite (proj2 (nullable_Matches r1) H1). apply MAltR. now apply IH2.
    + cbn [app] in Et. injection Et as E1 E2. subst.
      assert (Hm : Matches (Seq (deriv c r1) r2) (s1' ++ s2))
        by (constructor; auto).
      destruct (nullable r1); [now apply MAltL | exact Hm].
  - apply MAltL. now apply IH.
  - apply MAltR. now apply IH.
  - destruct s1 as [|x s1'].
    + cbn [app] in Et. now apply IH2.
    + cbn [app] in Et. injection Et as E1 E2. subst. constructor; auto.
Qed.

Lemma fullMatch_Matches (r : regex) (s : jsstring) :
  fullMatch r s = true <-> Matches r s.
Proof.
  unfold fullMatch. revert r. induction s as [|c s IH]; intros r;
    cbn [fold_left].
  - apply nullable_Matches.
  - rewrite IH. split; [apply deriv_sound | apply deriv_complete].
Qed.

Lemma Matches_Star_Class (p : char -> bool) (s : jsstring) :
  Matches (Star (Class p)) s <-> Forall (fun c => p c = true) s.
Proof.
  split.
  - intros H. remember (Star (Class p)) as r eqn:Er.
    induction H; try discriminate; [constructor|].
    injection Er as ->. inversion H; subst. constructor; auto.
  - induction 1 as [|c s Hc _ IH]; [constructor|].
    change (c :: s) with ([c] ++ s). constructor; [now constructor | exact IH].
Qed.

Lemma Matches_Plus_Class (p : char -> bool) (s : jsstring) :
  Matches (Plus (Class p)) s <-> s <> [] /\ Forall (fun c => p c = true) s.
Proof.
  unfold Plus. split.
  - intros H. inversion H; subst.
    match goal with
    | H1 : Matches (Class p) _, H2 : Matches (Star _) _ |- _ =>
        inversion H1; subst; apply Matches_Star_Class in H2
    end.
    split; [discriminate | constructor; assumption].
  - intros [Hne Hall]. destruct Hall as [|c s' Hc Hs]; [contradiction|].
    change (c :: s') with ([c] ++ s').
    constructor; [now constructor | now apply Matches_Star_Class].
Qed.

Lemma Matches_unit (k : char) (s : jsstring) :
  Matches (Class (N.eqb k)) s <-> s = [k].
Proof.
  split.
  - intros H. inversion H; subst.
    match goal with E : (k =? _)%N = true |- _ => apply N.eqb_eq in E; now subst end.
  - intros ->. constructor. apply N.eqb_refl.
Qed.

Lemma validateEmail_parts (s : jsstring) :
  validateEmail s = true <->
  exists a b c : jsstring,
    s = a ++ str "@" ++ b ++ str "." ++ c
    /\ a <> [] /\ b <> [] /\ c <> []
    /\ Forall (fun x => emailUnit x = true) a
    /\ Forall (fun x => emailUnit x = true) b
    /\ Forall (fun x => emailUnit x = true) c.
Proof.
  unfold validateEmail. rewrite fullMatch_Matches. unfold emailRegex.
  change (str "@") with [64%N]. change (str ".") with [46%N].
  split.
  - intros H.
    inversion H as [| |? ? a r1 Ha H1| | | |]; subst; clear H.
    inversion H1 as [| |? ? x r2 Hx H2| | | |]; subst; clear H1.
    inversion H2 as [| |? ? b r3 Hb H3| | | |]; subst; clear H2.
    inversion H3 as [| |? ? y c Hy Hc| | | |]; subst; clear H3.
    apply Matches_unit in Hx, Hy. subst x y.
    apply Matches_Plus_Class in Ha, Hb, Hc.
    exists a, b, c. tauto.
  - intros (a & b & c & -> & Ha & Hb & Hc & Fa & Fb & Fc).
    constructor; [now apply Matches_Plus_Class|].
    constructor; [now apply Matches_unit|].
    constructor; [now apply Matches_Plus_Class|].
    constructor; [now apply Matches_unit|].
    now apply Matches_Plus_Class.
Qed.

(** X8. [validateEmail] accepts exactly the strings of the form
    [local@domain.tail] in which the three parts are non-empty and contain
    neither white space nor [@] (dots are allowed inside each part). *)
Theorem validateEmail_spec (s : jsstring) :
  validateEmail s = true <->
  exists a b c : jsstring,
    s = a ++ str "@" ++ b ++ str "." ++ c
    /\ a <> [] /\ b <> [] /\ c <> []
    /\ Forall (fun x => emailUnit x = true) a
    /\ Forall (fun x => emailUnit x = true) b
    /\ Forall (fun x => emailUnit x = true) c.
Proof.
  exact (validateEmail_parts s).
Qed.

Lemma validateEmail_spec_witness :
  exists a b c : jsstring,
    str "ana@loja.com.br" = a ++ str "@" ++ b ++ str "." ++ c
    /\ a <> [] /\ b <> [] /\ c <> []
    /\ Forall (fun x => emailUnit x = true) a
    /\ Forall (fun x => emailUnit x = true) b
    /\ Forall (fun x => emailUnit x = true) c.
Proof.
  apply (proj1 (validateEmail_spec (str "ana@loja.com.br"))).
  vm_compute. reflexivity.
Defined.

Lemma emailUnit_cases (x : char) :
  emailUnit x = true -> isWhiteSpace x = false /\ x <> 64%N.
Proof.
  unfold emailUnit. rewrite negb_true_iff, orb_false_iff, N.eqb_neq. tauto.
Qed.

Lemma occurrences_emailUnit (s : jsstring) :
  Forall (fun x => emailUnit x = true) s -> occurrences 64%N s = 0%nat.
Proof.
  intros H. unfold occurrences. apply count_occ_not_In.
  intros Hin. rewrite Forall_forall in H.
  apply H, emailUnit_cases in Hin. tauto.
Qed.

(** X9. Every string [validateEmail] accepts is free of white space, has
    exactly one [@], has at least five units, does not begin with [@] and
    contains a dot; a string failing any of these is rejected. *)
Theorem validateEmail_necessary (s : jsstring) :
  validateEmail s = true ->
  Forall (fun x => isWhiteSpace x = false) s
  /\ occurrences 64%N s = 1%nat
  /\ (5 <= length s)%nat
  /\ (exists x t, s = x :: t /\ x <> 64%N)
  /\ In 46%N s.
Proof.
  intros H. apply validateEmail_parts in H.
  destruct H as (a & b & c & -> & Ha & Hb & Hc & Fa & Fb & Fc).
  change (str "@") with [64%N]. change (str ".") with [46%N].
  split; [|split; [|split; [|split]]].
  - repeat (apply Forall_app; split);
      try (eapply Forall_impl; [|eassumption];
           intros x Hx; now apply emailUnit_cases in Hx);
      repeat constructor.
  - pose proof (occurrences_emailUnit Fa) as Ea.
    pose proof (occurrences_emailUnit Fb) as Eb.
    pose proof (occurrences_emailUnit Fc) as Ec.
    unfold occurrences, jsstring, char in *.
    rewrite !count_occ_app, Ea, Eb, Ec. reflexivity.
  - rewrite !length_app. cbn [length].
    destruct a, b, c; try contradiction; cbn [length]; lia.
  - destruct a as [|x a']; [contradiction|].
    exists x, (a' ++ [64%N] ++ b ++ [46%N] ++ c). split; [reflexivity|].
    apply Forall_inv, emailUnit_cases in Fa. tauto.
  - rewrite !in_app_iff. cbn [In]. tauto.
Qed.

Lemma validateEmail_necessary_witness :
  Forall (fun x => isWhiteSpace x = false) (str "a@b.co")
  /\ occurrences 64%N (str "a@b.co") = 1%nat
  /\ (5 <= length (str "a@b.co"))%nat
  /\ (exists x t, str "a@b.co" = x :: t /\ x <> 64%N)
  /\ In 46%N (str "a@b.co").
Proof.
  apply (validateEmail_necessary (str "a@b.co")). vm_compute. reflexivity.
Defined.

(** ** Business identifiers: generation and single-digit changes *)

Lemma cnpjCheckDigit_range (ws ds : list Z) : 0 <= cnpjCheckDigit ws ds <= 9.
Proof.
  unfold cnpjCheckDigit.
  pose proof (Z.mod_pos_bound (weightedSum ws ds) 11).
  destruct (weightedSum ws ds mod 11 <? 2) eqn:E; [lia|].
  apply Z.ltb_ge in E. lia.
Qed.

Lemma validateCNPJ_checks (c : jsstring) :
  Forall (fun x => isDigit x = true) c -> validateCNPJ c = true ->
  length c = 14%nat
  /\ cnpjCheckDigit cnpjWeights1 (firstn 12 (digits c)) = nth 12 (digits c) 0
  /\ cnpjCheckDigit cnpjWeights2 (firstn 13 (digits c)) = nth 13 (digits c) 0.
Proof.
  intros Hd Hv.
  destruct (Nat.eq_dec (length c) 14) as [Hlen|Hlen].
  - rewrite validateCNPJ_unfold in Hv
      by (rewrite stripNonDigits_fixed; assumption).
    cbv zeta in Hv. rewrite stripNonDigits_fixed in Hv by exact Hd.
    rewrite !andb_true_iff, !Z.eqb_eq in Hv. tauto.
  - unfold validateCNPJ in Hv. rewrite stripNonDigits_fixed in Hv by exact Hd.
    replace (length c =? 14)%nat with false in Hv
      by (symmetry; now apply Nat.eqb_neq).
    discriminate Hv.
Qed.

Lemma cnpjGenerate_accepted (base : list Z) :
  length base = 12%nat -> Forall (fun d => 0 <= d <= 9) base ->
  ~ In (digitString (cnpjGenerate base)) cnpjDenylist ->
  validateCNPJ (digitString (cnpjGenerate base)) = true.
Proof.
  intros Hlen Hb Hnot.
  assert (Hg : Forall (fun d => 0 <= d <= 9) (cnpjGenerate base)).
  { unfold cnpjGenerate. apply Forall_app. split; [exact Hb|].
    repeat constructor; apply cnpjCheckDigit_range. }
  assert (Hl : length (digitString (cnpjGenerate base)) = 14%nat).
  { unfold digitString, cnpjGenerate.
    rewrite length_map, length_app, Hlen. reflexivity. }
  pose proof (digitString_digits Hg) as Hd.
  rewrite validateCNPJ_unfold by (rewrite stripNonDigits_fixed; assumption).
  cbv zeta. rewrite stripNonDigits_fixed by exact Hd.
  rewrite digits_digitString by exact Hg.
  rewrite <- knownInvalidCNPJ_denylist, not_true_iff_false in Hnot.
  rewrite Hnot. cbn [negb andb].
  do 13 (destruct base as [|? base]; try discriminate Hlen).
  apply andb_true_iff. split; apply Z.eqb_eq; reflexivity.
Qed.

(** A change of one weighted digit moves the remainder modulo 11. *)
Lemma cnpj_remainder_moves (S w delta : Z) :
  2 <= w <= 9 -> -9 <= delta <= 9 -> delta <> 0 ->
  (S + w * delta) mod 11 <> S mod 11.
Proof.
  intros Hw Hdl Hne Heq.
  assert (w = 2 \/ w = 3 \/ w = 4 \/ w = 5 \/ w = 6 \/ w = 7
          \/ w = 8 \/ w = 9) as Hc by lia.
  assert (delta = -9 \/ delta = -8 \/ delta = -7 \/ delta = -6 \/ delta = -5
          \/ delta = -4 \/ delta = -3 \/ delta = -2 \/ delta = -1 \/ delta = 1
          \/ delta = 2 \/ delta = 3 \/ delta = 4 \/ delta = 5 \/ delta = 6
          \/ delta = 7 \/ delta = 8 \/ delta = 9) as Hd by lia.
  clear Hw Hdl Hne.
  decompose [or] Hc; subst w; decompose [or] Hd; subst delta;
    Z.to_euclidean_division_equations; lia.
Qed.

Lemma cnpj_digit_moves (S w delta x : Z) :
  2 <= w <= 9 -> -9 <= delta <= 9 -> delta <> 0 -> x <> 0 ->
  (if S mod 11 <? 2 then 0 else 11 - S mod 11) = x ->
  (if (S + w * delta) mod 11 <? 2 then 0 else 11 - (S + w * delta) mod 11) = x ->
  False.
Proof.
  intros Hw Hdl Hne Hx H1 H2.
  apply (@cnpj_remainder_moves S w delta); try assumption.
  destruct (S mod 11 <? 2); [congruence|].
  destruct ((S + w * delta) mod 11 <? 2); [congruence|]. lia.
Qed.

Ltac cnpj_moved V M w d ci :=
  match type of V with
  | (if ?S mod 11 <? 2 then _ else _) = ?x =>
      match type of M with
      | (if ?S' mod 11 <? 2 then _ else _) = _ =>
          apply (@cnpj_digit_moves S w (digitVal d - digitVal ci) x);
          [ lia | lia | lia | assumption | exact V
          | replace (S + w * (digitVal d - digitVal ci)) with S' by ring;
            exact M ]
      end
  end.

Lemma cnpj_change_detected (c : jsstring) (i : nat) (d : char) :
  length c = 14%nat ->
  Forall (fun x => isDigit x = true) c ->
  validateCNPJ c = true ->
  (i < 14)%nat -> isDigit d = true -> d <> nth i c 0%N ->
  ((12 <= i)%nat \/ nth 12 (digits c) 0 <> 0 \/ nth 13 (digits c) 0 <> 0) ->
  validateCNPJ (mutate c i d) = false.
Proof.
  intros Hlen Hc Hv Hi Hd Hne Hcond.
  destruct (validateCNPJ (mutate c i d)) eqn:Hm; [exfalso | reflexivity].
  apply validateCNPJ_checks in Hm; [|now apply mutate_digits].
  apply validateCNPJ_checks in Hv; [|exact Hc].
  destruct Hv as (_ & V1 & V2). destruct Hm as (_ & M1 & M2).
  assert (Hy : digitVal d <> digitVal (nth i c 0%N)).
  { intros E. apply Hne. apply digitVal_inj; try assumption.
    rewrite Forall_forall in Hc. apply Hc, nth_In. lia. }
  pose proof (digitVal_range d Hd) as Hdr.
  destruct c as [|c0 [|c1 [|c2 [|c3 [|c4 [|c5 [|c6 [|c7 [|c8 [|c9 [|c10
                [|c11 [|c12 [|c13 [|? ?]]]]]]]]]]]]]]];
    try discriminate Hlen.
  clear Hlen. digit_bounds.
  unfold cnpjCheckDigit in *.
  destruct i as [|[|[|[|[|[|[|[|[|[|[|[|[|[|i]]]]]]]]]]]]]]; try lia;
    cbn [mutate firstn skipn app digits map nth cnpjWeights1 cnpjWeights2
         weightedSum] in *.
  - destruct Hcond as [H|[H|H]];
      [lia | cnpj_moved V1 M1 5 d c0 | cnpj_moved V2 M2 6 d c0].
  - destruct Hcond as [H|[H|H]];
      [lia | cnpj_moved V1 M1 4 d c1 | cnpj_moved V2 M2 5 d c1].
  - destruct Hcond as [H|[H|H]];
      [lia | cnpj_moved V1 M1 3 d c2 | cnpj_moved V2 M2 4 d c2].
  - destruct Hcond as [H|[H|H]];
      [lia | cnpj_moved V1 M1 2 d c3 | cnpj_moved V2 M2 3 d c3].
  - destruct Hcond as [H|[H|H]];
      [lia | cnpj_moved V1 M1 9 d c4 | cnpj_moved V2 M2 2 d c4].
  - destruct Hcond as [H|[H|H]];
      [lia | cnpj_moved V1 M1 8 d c5 | cnpj_moved V2 M2 9 d c5].
  - destruct Hcond as [H|[H|H]];
      [lia | cnpj_moved V1 M1 7 d c6 | cnpj_moved V2 M2 8 d c6].
  - destruct Hcond as [H|[H|H]];
      [lia | cnpj_moved V1 M1 6 d c7 | cnpj_moved V2 M2 7 d c7].
  - destruct Hcond as [H|[H|H]];
      [lia | cnpj_moved V1 M1 5 d c8 | cnpj_moved V2 M2 6 d c8].
  - destruct Hcond as [H|[H|H]];
      [lia | cnpj_moved V1 M1 4 d c9 | cnpj_moved V2 M2 5 d c9].
  - destruct Hcond as [H|[H|H]];
      [lia | cnpj_moved V1 M1 3 d c10 | cnpj_moved V2 M2 4 d c10].
  - destruct Hcond as [H|[H|H]];
      [lia | cnpj_moved V1 M1 2 d c11 | cnpj_moved V2 M2 3 d c11].
  - congruence.
  - congruence.
Qed.

(** X10. Twelve base digits completed by the two check digits
    [validateCNPJ] computes are accepted, unless the result is one of the
    ten all-same-digit identifiers.  Changing one digit of an accepted
    fourteen-digit identifier to a different digit is rejected whenever the
    changed digit is a check digit or one of the two check digits is not 0.
    When both check digits are 0 a change can pass: 10000000000900 and
    30000000000900 are both accepted. *)
Theorem cnpj_generated_accepted_changes_detected :
  (forall base : list Z,
      length base = 12%nat -> Forall (fun d => 0 <= d <= 9) base ->
      ~ In (digitString (cnpjGenerate base)) cnpjDenylist ->
      validateCNPJ (digitString (cnpjGenerate base)) = true)
  /\ (forall (c : jsstring) (i : nat) (d : char),
         length c = 14%nat ->
         Forall (fun x => isDigit x = true) c ->
         validateCNPJ c = true ->
         (i < 14)%nat -> isDigit d = true -> d <> nth i c 0%N ->
         ((12 <= i)%nat
          \/ nth 12 (digits c) 0 <> 0 \/ nth 13 (digits c) 0 <> 0) ->
         validateCNPJ (mutate c i d) = false)
  /\ (validateCNPJ (str "10000000000900") = true
      /\ mutate (str "10000000000900") 0 51%N = str "30000000000900"
      /\ validateCNPJ (str "30000000000900") = true).
Proof.
  split; [exact cnpjGenerate_accepted|].
  split; [exact cnpj_change_detected|].
  repeat split; vm_compute; reflexivity.
Qed.

Lemma cnpj_generated_accepted_changes_detected_witness :
  validateCNPJ
    (digitString (cnpjGenerate [1; 1; 2; 2; 2; 3; 3; 3; 0; 0; 0; 1])) = true
  /\ validateCNPJ (mutate (str "11222333000181") 5 48%N) = false.
Proof.
  split.
  - apply (proj1 cnpj_generated_accepted_changes_detected).
    + reflexivity.
    + repeat constructor; lia.
    + vm_compute. intuition discriminate.
  - apply (proj1 (proj2 cnpj_generated_accepted_changes_detected)).
    + reflexivity.
    + repeat constructor.
    + vm_compute. reflexivity.
    + lia.
    + reflexivity.
    + vm_compute. discriminate.
    + right. left. vm_compute. discriminate.
Defined.

(** ** Blank values *)

Lemma dropWhile_nil {A} (p : A -> bool) (l : list A) :
  dropWhile p l = [] <-> Forall (fun a => p a = true) l.
Proof.
  induction l as [|a r IH]; cbn [dropWhile].
  - split; [constructor | reflexivity].
  - destruct (p a) eqn:E.
    + rewrite IH. split; [now constructor | apply Forall_inv_tail].
    + split; [discriminate|]. intros H. apply Forall_inv in H. congruence.
Qed.

Lemma dropWhile_head {A} (p : A -> bool) (l : list A) (a : A) (r : list A) :
  dropWhile p l = a :: r -> p a = false.
Proof.
  induction l as [|x l IH]; cbn [dropWhile]; [discriminate|].
  destruct (p x) eqn:E; [exact IH|]. intros H. injection H as <- _. exact E.
Qed.

(** A string trims to the empty string exactly when it is all white space. *)
Lemma trim_blank (s : jsstring) :
  truthy (trim s) = false <-> Forall (fun c => isWhiteSpace c = true) s.
Proof.
  assert (Ht : truthy (trim s) = false <-> trim s = [])
    by (destruct (trim s); cbn; split; congruence).
  rewrite Ht. unfold trim.
  rewrite <- dropWhile_nil.
  destruct (dropWhile isWhiteSpace s) as [|a r] eqn:E.
  - split; reflexivity.
  - split; [|discriminate]. intros H. exfalso.
    apply (f_equal (@rev char)) in H. rewrite rev_involutive in H.
    cbn [rev] in H. apply dropWhile_nil in H.
    apply Forall_app in H. destruct H as [_ H]. apply Forall_inv in H.
    apply dropWhile_head in E. congruence.
Qed.

Lemma trim_nonblank (s : jsstring) :
  truthy (trim s) = true <-> Exists (fun c => isWhiteSpace c = false) s.
Proof.
  rewrite <- not_false_iff_true, trim_blank, <- Exists_Forall_neg.
  - split; apply Exists_impl; intros a; destruct (isWhiteSpace a); congruence.
  - intros a. destruct (isWhiteSpace a); [left | right]; congruence.
Qed.

(** X11. [validateRequired] accepts a value exactly when some unit of it is
    not white space; a rejected value gets the field name followed by
    " é obrigatório". *)
Theorem validateRequired_spec (value fieldName : jsstring) :
  (isValid (validateRequired value fieldName) = true
   <-> Exists (fun c => isWhiteSpace c = false) value)
  /\ (Forall (fun c => isWhiteSpace c = true) value ->
        validateRequired value fieldName
        = mkResult false (fieldName ++ str " é obrigatório")).
Proof.
  unfold validateRequired.
  assert (E : (0 <? length (trim value))%nat = truthy (trim value))
    by (destruct (trim value); reflexivity).
  rewrite E. cbn [isValid]. split.
  - apply trim_nonblank.
  - intros H. apply trim_blank in H. rewrite H. reflexivity.
Qed.

Lemma validateRequired_spec_witness :
  validateRequired (str "  ") (str "Nome")
  = mkResult false (str "Nome" ++ str " é obrigatório").
Proof.
  apply (proj2 (validateRequired_spec (str "  ") (str "Nome"))).
  repeat constructor.
Defined.

(** ** The change handler *)

Lemma has_digit_nonblank (s : jsstring) :
  stripNonDigits s <> [] -> truthy (trim s) = true.
Proof.
  intros H. apply trim_nonblank.
  destruct (stripNonDigits s) as [|d r] eqn:E; [contradiction|].
  assert (Hin : In d (stripNonDigits s)) by (rewrite E; now left).
  apply filter_In in Hin. destruct Hin as [Hin Hd].
  apply Exists_exists. exists d. split; [exact Hin|].
  now apply isDigit_not_space.
Qed.

Lemma no_digit_blank (s : jsstring) :
  Forall (fun c => isWhiteSpace c = true) s -> stripNonDigits s = [].
Proof.
  induction 1 as [|c r Hc _ IH]; [reflexivity|].
  unfold stripNonDigits in *. cbn [filter].
  destruct (isDigit c) eqn:Hd; [|exact IH].
  apply isDigit_not_space in Hd. congruence.
Qed.

Lemma formatDocument_no_digit (v : jsstring) :
  stripNonDigits v = [] -> formatDocument v = [].
Proof.
  intros H. unfold formatDocument. rewrite H. reflexivity.
Qed.

Lemma formatPhone_blank (v : jsstring) :
  truthy (trim (formatPhone v)) = truthy (trim v).
Proof.
  pose proof (formatPhone_digits v) as Hd.
  pose proof (formatPhone_unfold v) as E. cbv zeta in E.
  destruct (length (stripNonDigits v) =? 10)%nat eqn:E10.
  { apply Nat.eqb_eq in E10.
    assert (Hne : stripNonDigits v <> [])
      by (intros H0; rewrite H0 in E10; discriminate).
    rewrite !has_digit_nonblank; congruence. }
  destruct (length (stripNonDigits v) =? 11)%nat eqn:E11.
  { apply Nat.eqb_eq in E11.
    assert (Hne : stripNonDigits v <> [])
      by (intros H0; rewrite H0 in E11; discriminate).
    rewrite !has_digit_nonblank; congruence. }
  now rewrite E.
Qed.

Lemma handleChange_blank_newValue (props : Props) (value : jsstring) :
  truthy (trim (newValue (handleChange props value))) = false ->
  validation (handleChange props value)
  = if required props then
      mkResult false (labelOrDefault (label props) ++ str " é obrigatório")
    else mkResult true [].
Proof.
  unfold handleChange. cbn [newValue validation].
  intros ->. cbn [negb]. rewrite andb_true_r.
  destruct (required props); reflexivity.
Qed.

(** X12. A value made of white space only (the empty value included) is
    never handed to a validator: whatever the validation type, it is
    invalid with "<label, or Campo> é obrigatório" in a required field and
    valid with no message otherwise. *)
Theorem handleChange_blank (props : Props) (value : jsstring) :
  Forall (fun c => isWhiteSpace c = true) value ->
  validation (handleChange props value)
  = if required props then
      mkResult false (labelOrDefault (label props) ++ str " é obrigatório")
    else mkResult true [].
Proof.
  intros H. apply handleChange_blank_newValue.
  unfold handleChange. cbn [newValue].
  destruct (validationType props) as [[ | | | | | ]|];
    try (now apply trim_blank).
  - rewrite formatDocument_no_digit by now apply no_digit_blank.
    reflexivity.
  - rewrite formatPhone_blank. now apply trim_blank.
Qed.

Lemma handleChange_blank_witness :
  validation
    (handleChange (mkProps None (Some ValidationType.email) true) (str "  "))
  = mkResult false (str "Campo" ++ str " é obrigatório").
Proof.
  apply (@handleChange_blank
           (mkProps None (Some ValidationType.email) true) (str "  ")).
  repeat constructor.
Defined.

(** X13. The validation type ['required'] adds nothing to the [required]
    prop: with it the handler emits and reports exactly what it does with
    no validation type, so in a field that is not marked required it never
    reports an error. *)
Theorem handleChange_required_type (l : option jsstring) (req : bool)
    (value : jsstring) :
  handleChange (mkProps l (Some ValidationType.required) req) value
  = handleChange (mkProps l None req) value
  /\ validation
       (handleChange (mkProps l (Some ValidationType.required) false) value)
     = mkResult true [].
Proof.
  unfold handleChange. cbn [validationType required label].
  unfold validateRequired.
  destruct (trim value) as [|c r]; cbn [truthy negb length Nat.ltb Nat.leb];
    rewrite ?andb_true_r, ?andb_false_r; split; reflexivity.
Qed.

(** X14. In a document field the handler emits [formatDocument] of the
    typed value and reports the verdict and message of [validateDocument]
    on the typed value itself, as soon as it has a digit; a value without
    any digit is emitted as the empty string and treated as blank, so it
    is valid unless the field is required. *)
Theorem handleChange_document (l : option jsstring) (req : bool)
    (value : jsstring) :
  let props := mkProps l (Some ValidationType.document) req in
  newValue (handleChange props value) = formatDocument value
  /\ (stripNonDigits value <> [] ->
        validation (handleChange props value)
        = mkResult (Document.isValid (validateDocument value))
            (Document.message (validateDocument value)))
  /\ (stripNonDigits value = [] ->
        newValue (handleChange props value) = []
        /\ validation (handleChange props value)
           = if req then
               mkResult false (labelOrDefault l ++ str " é obrigatório")
             else mkResult true []).
Proof.
  cbv zeta. split; [reflexivity|]. split.
  - intros H. unfold handleChange. cbn [validationType required validation].
    rewrite has_digit_nonblank by (now rewrite formatDocument_digits).
    cbn [negb]. rewrite andb_false_r.
    rewrite (validateDocument_clean (formatDocument value)),
      formatDocument_digits, <- validateDocument_clean.
    reflexivity.
  - intros H. split.
    + unfold handleChange. cbn [newValue validationType].
      now apply formatDocument_no_digit.
    + rewrite handleChange_blank_newValue; [reflexivity|].
      unfold handleChange. cbn [newValue validationType].
      rewrite formatDocument_no_digit by exact H. reflexivity.
Qed.

Lemma handleChange_document_witness :
  validation
    (handleChange (mkProps None (Some ValidationType.document) false)
       (str "529.982.247-25"))
  = mkResult (Document.isValid (validateDocument (str "529.982.247-25")))
      (Document.message (validateDocument (str "529.982.247-25")))
  /\ (newValue
        (handleChange (mkProps None (Some ValidationType.document) false)
           (str "abc")) = []
      /\ validation
           (handleChange (mkProps None (Some ValidationType.document) false)
              (str "abc"))
         = mkResult true []).
Proof.
  split.
  - apply (proj1 (proj2 (handleChange_document None false
                           (str "529.982.247-25")))).
    vm_compute. discriminate.
  - apply (proj2 (proj2 (handleChange_document None false (str "abc")))).
    reflexivity.
Defined.

(** X15. In a phone field the handler emits [formatPhone] of the typed
    value and, unless the value is blank, reports [validatePhone] of the
    typed value itself, with "Telefone inválido" exactly when it fails. *)
Theorem handleChange_phone (l : option jsstring) (req : bool)
    (value : jsstring) :
  let props := mkProps l (Some ValidationType.phone) req in
  newValue (handleChange props value) = formatPhone value
  /\ (Exists (fun c => isWhiteSpace c = false) value ->
        validation (handleChange props value)
        = mkResult (validatePhone value)
            (if validatePhone value then [] else str "Telefone inválido")).
Proof.
  cbv zeta. split; [reflexivity|].
  intros H. apply trim_nonblank in H.
  unfold handleChange. cbn [validationType required validation].
  rewrite formatPhone_blank, H. cbn [negb]. rewrite andb_false_r.
  unfold validatePhone. rewrite formatPhone_digits. reflexivity.
Qed.

Lemma handleChange_phone_witness :
  validation
    (handleChange (mkProps None (Some ValidationType.phone) false)
       (str "11 98765-4321"))
  = mkResult (validatePhone (str "11 98765-4321"))
      (if validatePhone (str "11 98765-4321") then []
       else str "Telefone inválido").
Proof.
  apply (proj2 (handleChange_phone None false (str "11 98765-4321"))).
  apply Exists_cons_hd. reflexivity.
Defined.

(** X16. Feeding the emitted value back into the handler changes nothing:
    the same value is emitted again with the same validation. *)
Theorem handleChange_stable (props : Props) (value : jsstring) :
  handleChange props (newValue (handleChange props value))
  = handleChange props value.
Proof.
  unfold handleChange. cbn [newValue].
  destruct (validationType props) as [[ | | | | | ]|]; try reflexivity.
  - now rewrite (proj1 (proj2 (proj2 (format_idempotent_parts value)))).
  - now rewrite (proj2 (proj2 (proj2 (format_idempotent_parts value)))).
Qed.

Lemma truthy_nonempty (s : jsstring) : truthy s = true <-> s <> [].
Proof.
  destruct s; cbn; split; congruence.
Qed.

Lemma validateNumber_message (value : jsstring) (min max : option number) :
  isValid (validateNumber value min max) = true
  <-> message (validateNumber value min max) = [].
Proof.
  unfold validateNumber.
  destruct (isNaN (parseFloat value)); cbn [isValid message].
  { split; discriminate. }
  destruct (lt (parseFloat value) _); cbn [isValid message].
  { split; [discriminate|]. intros H. apply app_eq_nil in H.
    destruct H as [H _]. discriminate H. }
  destruct max as [M|]; [|split; reflexivity].
  destruct (gt (parseFloat value) M); cbn [isValid message];
    [|split; reflexivity].
  split; [discriminate|]. intros H. apply app_eq_nil in H.
  destruct H as [H _]. discriminate H.
Qed.

Lemma validateDocument_invalid_message (document : jsstring) :
  Document.isValid (validateDocument document) = false ->
  Document.message (validateDocument document) <> [].
Proof.
  unfold validateDocument.
  destruct (length (stripNonDigits document) =? 11)%nat.
  { cbn [Document.isValid Document.message].
    destruct (validateCPF document); discriminate. }
  destruct (length (stripNonDigits document) =? 14)%nat;
    cbn [Document.isValid Document.message]; [|discriminate].
  destruct (validateCNPJ document); discriminate.
Qed.

(** X17. After every change the validation state is consistent: an invalid
    state always carries a message, so the error paragraph is shown exactly
    when the state is invalid (and validation is displayed); a valid state
    carries no message, except in a document field. *)
Theorem handleChange_state_consistent (props : Props) (value : jsstring)
    (showValidation : bool) :
  let st := validation (handleChange props value) in
  (isValid st = false -> message st <> [])
  /\ (isValid st = true ->
        validationType props <> Some ValidationType.document ->
        message st = [])
  /\ errorShown showValidation st = showValidation && negb (isValid st).
Proof.
  cbv zeta.
  assert (H : (isValid (validation (handleChange props value)) = false ->
               message (validation (handleChange props value)) <> [])
              /\ (isValid (validation (handleChange props value)) = true ->
                  validationType props <> Some ValidationType.document ->
                  message (validation (handleChange props value)) = [])).
  { unfold handleChange. cbn [validation].
    destruct (required props && negb (truthy (trim _))).
    { cbn [isValid message]. split; [|discriminate].
      intros _ H. apply app_eq_nil in H. destruct H as [_ H]. discriminate H. }
    destruct (truthy (trim _)); [|split; [discriminate | reflexivity]].
    destruct (validationType props) as [[ | | | | | ]|];
      cbn [isValid message].
    - split; [apply validateDocument_invalid_message | congruence].
    - destruct (validatePhone _); split; (discriminate || reflexivity).
    - destruct (validateEmail _); split; (discriminate || reflexivity).
    - destruct (validateCurrency _); split; (discriminate || reflexivity).
    - unfold validateRequired. cbn [isValid message].
      destruct (0 <? length (trim value))%nat; split;
        try discriminate; try reflexivity.
      intros _ H. apply app_eq_nil in H. destruct H as [_ H]. discriminate H.
    - split.
      + intros Hv Hm. apply validateNumber_message in Hm. congruence.
      + intros Hv _. now apply validateNumber_message.
    - split; [discriminate | reflexivity]. }
  destruct H as [H1 H2]. split; [exact H1|]. split; [exact H2|].
  unfold errorShown.
  destruct (isValid (validation (handleChange props value))) eqn:E.
  - cbn [negb]. now rewrite !andb_false_r.
  - cbn [negb]. rewrite andb_true_r.
    rewrite (proj2 (truthy_nonempty _) (H1 eq_refl)). apply andb_true_r.
Qed.

Lemma handleChange_state_consistent_witness :
  message
    (validation
       (handleChange (mkProps None (Some ValidationType.email) false)
          (str "a@b"))) <> []
  /\ message
       (validation
          (handleChange (mkProps None (Some ValidationType.email) false)
             (str "a@b.co"))) = [].
Proof.
  split.
  - apply (proj1 (handleChange_state_consistent
                    (mkProps None (Some ValidationType.email) false)
                    (str "a@b") true)).
    reflexivity.
  - apply (proj1 (proj2 (handleChange_state_consistent
                           (mkProps None (Some ValidationType.email) false)
                           (str "a@b.co") true))).
    + reflexivity.
    + discriminate.
Defined.

(** ** Bounds that exclude every value *)

Lemma SFltb_orderKey (x y : number) :
  isNaN x = false -> isNaN y = false ->
  (SFltb x y = true <-> keyLt (orderKey x) (orderKey y)).
Proof.
  intros Hx Hy. unfold SFltb, keyLt.
  destruct x as [sx|sx| |sx mx ex], y as [sy|sy| |sy my ey];
    try discriminate; cbn [SFcompare orderKey];
    try destruct sx; try destruct sy;
    try (split; intros Hk; first [reflexivity | discriminate | lia]).
  - change (Pos.compare_cont Eq mx my) with (mx ?= my)%positive.
    destruct (Z.compare_spec ex ey) as [He|He|He];
      [|split; intros Hk; first [reflexivity | discriminate | lia] ..].
    destruct (Pos.compare_spec mx my) as [Hm|Hm|Hm]; cbn [CompOpp];
      split; intros Hk; first [reflexivity | discriminate | lia].
  - change (Pos.compare_cont Eq mx my) with (mx ?= my)%positive.
    destruct (Z.compare_spec ex ey) as [He|He|He];
      [|split; intros Hk; first [reflexivity | discriminate | lia] ..].
    destruct (Pos.compare_spec mx my) as [Hm|Hm|Hm];
      split; intros Hk; first [reflexivity | discriminate | lia].
Qed.

Lemma SFltb_not_nan (x y : number) :
  SFltb x y = true -> isNaN x = false /\ isNaN y = false.
Proof.
  unfold SFltb. destruct x, y; cbn; try discriminate; auto.
Qed.

(** X18. The bounds are not checked against each other: when the maximum
    is below the minimum (the default 0 if none is passed), no value at all
    is valid. *)
Theorem validateNumber_empty_range (value : jsstring) (min : option number)
    (max : number) :
  lt max (match min with Some m => m | None => ofZ 0 end) = true ->
  isValid (validateNumber value min (Some max)) = false.
Proof.
  intros H. unfold validateNumber.
  set (m := match min with Some m => m | None => ofZ 0 end) in *.
  destruct (isNaN (parseFloat value)) eqn:Hx; [reflexivity|].
  destruct (lt (parseFloat value) m) eqn:Hlt; [reflexivity|].
  unfold lt, gt in *.
  destruct (SFltb_not_nan _ _ H) as [Hmax Hm].
  replace (SFltb max (parseFloat value)) with true; [reflexivity|].
  symmetry. apply SFltb_orderKey; try assumption.
  apply SFltb_orderKey in H; try assumption.
  assert (Hn : ~ keyLt (orderKey (parseFloat value)) (orderKey m)).
  { intros Hk. apply SFltb_orderKey in Hk; try assumption. congruence. }
  unfold keyLt in *.
  destruct (orderKey max) as [[a1 a2] a3].
  destruct (orderKey m) as [[b1 b2] b3].
  destruct (orderKey (parseFloat value)) as [[c1 c2] c3]. lia.
Qed.

Lemma validateNumber_empty_range_witness :
  isValid (validateNumber (str "7") (Some (ofZ 10)) (Some (ofZ 5))) = false.
Proof.
  apply (@validateNumber_empty_range (str "7") (Some (ofZ 10)) (ofZ 5)).
  reflexivity.
Defined.

(** ** Amounts *)

(** X19. [validateCurrency] looks only at digits, dots and commas: any
    other unit (a minus sign, a currency symbol, a letter, a space) can be
    inserted anywhere without changing the verdict, so a negative amount is
    as valid as the positive one; and an accepted value contains a digit. *)
Theorem validateCurrency_ignores_other_units :
  (forall (a b : jsstring) (x : char),
      isCurrencyChar x = false ->
      validateCurrency (a ++ x :: b) = validateCurrency (a ++ b))
  /\ (forall v : jsstring,
         validateCurrency v = true -> Exists (fun c => isDigit c = true) v).
Proof.
  split.
  - intros a b x Hx. unfold validateCurrency, stripNonCurrency.
    rewrite !filter_app. cbn [filter]. now rewrite Hx.
  - intros v H. unfold validateCurrency in H.
    apply andb_true_iff in H. destruct H as [H _].
    apply negb_true_iff in H.
    set (w := replaceFirstComma (stripNonCurrency v)) in *.
    assert (Hw : Forall (fun c => isCurrencyChar c = true) w)
      by apply replaceFirstComma_currency, stripNonCurrency_currency.
    pose proof (scanDecimalLiteral_currency Hw) as Hs.
    unfold parseFloat in H. rewrite dropWhile_none in H
      by (eapply Forall_impl; [|exact Hw]; apply isCurrencyChar_not_space).
    destruct (scanDecimalLiteral w) as [[y t]|]; [|discriminate H].
    destruct Hs as [Hs _].
    assert (Hd : Exists (fun c => isDigit c = true) w).
    { destruct w as [|c r]; [discriminate Hs|]. cbn [startsWithNumeral] in Hs.
      destruct (isDigit c) eqn:Hc; [now left|]. cbn [orb] in Hs.
      apply andb_true_iff in Hs. destruct Hs as [_ Hs].
      destruct r as [|c2 r2]; [discriminate Hs|]. right. now left. }
    clear - Hd. subst w.
    assert (Hin : forall l, Exists (fun c => isDigit c = true)
                              (replaceFirstComma l) ->
                            Exists (fun c => isDigit c = true) l).
    { induction l as [|c r IH]; cbn [replaceFirstComma]; [auto|].
      destruct (c =? 44)%N eqn:Ec.
      - intros H. inversion H as [? ? H0|? ? H0]; subst;
          [discriminate H0 | now right].
      - intros H. inversion H as [? ? H0|? ? H0]; subst;
          [now left | right; now apply IH]. }
    apply Hin in Hd. apply Exists_exists in Hd.
    destruct Hd as (c & Hc & Hdig). apply filter_In in Hc.
    apply Exists_exists. exists c. tauto.
Qed.

Lemma validateCurrency_ignores_other_units_witness :
  validateCurrency (str "R$ " ++ 45%N :: str "12,50")
  = validateCurrency (str "R$ " ++ str "12,50")
  /\ Exists (fun c => isDigit c = true) (str "R$ -12,50").
Proof.
  split.
  - apply (proj1 validateCurrency_ignores_other_units). reflexivity.
  - apply (proj2 validateCurrency_ignores_other_units). vm_compute.
    reflexivity.
Defined.

(** ** Degenerate individual identifiers *)

(** X20. Each of the ten identifiers made of one digit repeated eleven
    times satisfies both check-digit equations, and is rejected all the
    same, with or without punctuation: the repeated-digit test is what
    excludes them. *)
Theorem cpf_degenerate_rejected (d : Z) :
  0 <= d <= 9 ->
  let c := repeat (digitChar d) 11 in
  nth 9 (digits c) 0 = cpfCheckDigit cpfWeights1 (firstn 9 (digits c))
  /\ nth 10 (digits c) 0 = cpfCheckDigit cpfWeights2 (firstn 10 (digits c))
  /\ (forall s, stripNonDigits s = c -> validateCPF s = false).
Proof.
  intros Hd.
  assert (d = 0 \/ d = 1 \/ d = 2 \/ d = 3 \/ d = 4 \/ d = 5 \/ d = 6
          \/ d = 7 \/ d = 8 \/ d = 9) as Hc by lia.
  cbv zeta.
  decompose [or] Hc; subst d; (split; [reflexivity|]);
    (split; [reflexivity|]);
    intros s Hs; rewrite (validateCPF_clean s), Hs; reflexivity.
Qed.

Lemma cpf_degenerate_rejected_witness :
  validateCPF (str "777.777.777-77") = false.
Proof.
  assert (H : 0 <= 7 <= 9) by lia.
  apply (proj2 (proj2 (@cpf_degenerate_rejected 7 H))).
  reflexivity.
Defined.
